(** * SpendWise Pro: the authentication session core

    A shallow embedding of the credential codec, the refresh-token ledger,
    issuance (login), rotation (refresh), the request guard and the client
    side refresh coordinator, followed by the properties established for them.

    Sources embedded:
    - server/controllers/authController.js  (generateAccessToken,
      generateRefreshToken, sendTokenResponse, login, logout, refreshToken,
      getMe)
    - server/models/RefreshToken.js         (schema, cleanupExpiredTokens,
      revokeAllUserTokens)
    - server/models/User.js                 (getPublicProfile)
    - server/middleware/errorHandler.js     (AppError, the handle functions,
      errorHandler, asyncHandler, notFoundHandler)
    - the authentication middleware imported as middleware/auth.js
      (authenticate, optionalAuth, requireActiveUser)
    - the authentication routes              (logout and me behind the guard)
    - the axios instance imported by the client services as api/index
      (request and response interceptors, processQueue)
    - client/src/api/authService.ts         (login, register, refreshToken,
      logout)
    - client/src/store/slices/authSlice.ts  (the reducer), and the route
      wrappers of App.tsx (ProtectedRoute, PublicRoute)

    Conventions.  Dates are epoch milliseconds in [Z].  A handler reads the
    clock once per request.  Console logging is not part of the model.  A
    database call either completes or throws before writing anything; which
    one happens is decided by a fault schedule carried in the world.
    Register is not embedded: once the user document exists it ends, like
    login, in [sendTokenResponse], with status 201. *)

From Stdlib Require Import ZArith List String Ascii Bool Lia DecimalString.
Import ListNotations.
Local Open Scope string_scope.
Local Open Scope list_scope.
Local Open Scope Z_scope.
Set Warnings "-register-all".


(* ================================================================== *)
(** * JavaScript values shared by the server model *)
(* ================================================================== *)

Module Js.

(** [err.code] is a string for application errors and a number (11000) for
    MongoDB duplicate keys. *)
Inductive ErrCode : Type :=
| CodeText (s : string)
| CodeNumber (n : Z).

(** The properties of an [Error] object the program reads.  An absent
    property ([undefined] or [null]) is [None]. *)
Record Error : Type := mkError {
  name : string;
  message : string;
  statusCode : option Z;
  code : option ErrCode;
  status : option string;
  isOperational : bool;
  errors : list string;
  stack : string
}.

(** [new Ctor(msg)] for the library error classes. *)
Definition libError (nm msg : string) : Error :=
  mkError nm msg None None None false [] (nm ++ ": " ++ msg)%string.

(** Completion of an evaluation: a value, or a thrown error. *)
Inductive Outcome (A : Type) : Type :=
| Return (a : A)
| Throw (e : Error).
Arguments Return {A} a.
Arguments Throw {A} e.

(** [a || b] on possibly-undefined strings: the empty string is falsy. *)
Definition or_string (a : option string) (b : string) : string :=
  match a with
  | Some s => if (s =? "")%string then b else s
  | None => b
  end.

Definition or_opt_string (a b : option string) : option string :=
  match a with
  | Some s => if (s =? "")%string then b else Some s
  | None => b
  end.

(** [n || d] on possibly-undefined numbers: [0] is falsy. *)
Definition or_number (a : option Z) (d : Z) : Z :=
  match a with
  | Some n => if n =? 0 then d else n
  | None => d
  end.

End Js.

(* ================================================================== *)
(** * CredentialCodec: the jsonwebtoken calls *)
(* ================================================================== *)

Module Jwt.
Import Js.

Definition UserId := nat.

(** What a token string can be: any text that is not a three-part JWS
    ([Opaque]), or a JWS carrying a payload object, the [iat] and [exp]
    claims in seconds, and a signature.  The signature is symbolic: it
    records the key it was made with, and nothing else can be learnt
    from it. *)
Inductive token : Type :=
| Opaque (text : string)
| Signed (p : payload) (iat exp : Z) (key : string)
with payload : Type :=
| IdClaim (id : UserId)        (* { id: userId } *)
| TokenClaim (t : token).      (* { token: refreshToken } *)

(** The object [jwt.verify] and [jwt.decode] return. *)
Record Decoded : Type := mkDecoded {
  d_payload : payload;
  d_iat : Z;
  d_exp : Z
}.

(** [decoded.id] *)
Definition d_id (d : Decoded) : option UserId :=
  match d_payload d with
  | IdClaim id => Some id
  | TokenClaim _ => None
  end.

(** [decoded.token] *)
Definition d_token (d : Decoded) : option token :=
  match d_payload d with
  | IdClaim _ => None
  | TokenClaim t => Some t
  end.

(** A token value used as a condition: only the empty string is falsy. *)
Definition truthy (t : token) : bool :=
  match t with
  | Opaque s => negb (s =? "")%string
  | Signed _ _ _ _ => true
  end.

Definition secret_set (secret : option string) : bool :=
  match secret with
  | Some s => negb (s =? "")%string
  | None => false
  end.

(** Modelled from the spec: [jwt.sign] of the jsonwebtoken package, an
    external dependency whose code is not part of the repository.  The
    token embeds the payload and an absolute expiry of issue time plus
    ttl (spec 4.1); times are whole seconds, [expiresIn] is the ttl already
    parsed to seconds, and signing without a secret throws, as the package
    documents. *)
Definition sign (p : payload) (secret : option string) (expiresIn : Z)
    (now : Z) : Outcome token :=
  match secret with
  | Some s =>
      if (s =? "")%string
      then Throw (libError "Error" "secretOrPrivateKey must have a value")
      else let iat := now / 1000 in
           Return (Signed p iat (iat + expiresIn) s)
  | None => Throw (libError "Error" "secretOrPrivateKey must have a value")
  end.

(** Modelled from the spec: [jwt.verify] of the jsonwebtoken package, not
    part of the repository.  It checks structure and signature first and
    fails with the malformed kind ([JsonWebTokenError]), then the expiry and
    fails with the distinct expired kind ([TokenExpiredError]) once the
    clock, in seconds, has reached [exp] (spec 4.1 and 8.1). *)
Definition verify (t : token) (secret : option string) (now : Z)
    : Outcome Decoded :=
  match t with
  | Opaque s =>
      if (s =? "")%string
      then Throw (libError "JsonWebTokenError" "jwt must be provided")
      else Throw (libError "JsonWebTokenError" "jwt malformed")
  | Signed p iat exp key =>
      if negb (secret_set secret)
      then Throw (libError "JsonWebTokenError"
                    "secret or public key must be provided")
      else if negb (String.eqb key (or_string secret ""))
      then Throw (libError "JsonWebTokenError" "invalid signature")
      else if now / 1000 >=? exp
      then Throw (libError "TokenExpiredError" "jwt expired")
      else Return (mkDecoded p iat exp)
  end.

(** Modelled from the spec: [jwt.decode] of the jsonwebtoken package, not
    part of the repository.  A token is signed and self-contained (spec 3
    and 4.1), not encrypted: its payload is read without any key and
    without checking the signature, as the package documents. *)
Definition decode (t : token) : option Decoded :=
  match t with
  | Opaque _ => None
  | Signed p iat exp _ => Some (mkDecoded p iat exp)
  end.

End Jwt.


(* ================================================================== *)
(** * The server: world, effects and persistence *)
(* ================================================================== *)

Module Server.
Import Js Jwt.

(** [process.env].  The ttl variables hold the time span already parsed to
    seconds (the literals '15m' and '7d' are 900 and 604800), and
    JWT_EXPIRE_MINUTES the integer [parseInt] yields. *)
Record Env : Type := mkEnv {
  NODE_ENV : option string;
  JWT_SECRET : option string;
  JWT_REFRESH_SECRET : option string;
  JWT_EXPIRE : option Z;
  JWT_REFRESH_EXPIRE : option Z;
  JWT_EXPIRE_MINUTES : option Z
}.

(** A document of the RefreshToken collection (models/RefreshToken.js). *)
Record RefreshRecord : Type := mkRefreshRecord {
  rt_id : nat;
  rt_token : token;
  rt_user : UserId;
  rt_expiresAt : Z;
  rt_isRevoked : bool;
  rt_createdAt : Z;
  rt_userAgent : string;
  rt_ipAddress : string
}.

(** A document of the User collection, reduced to what the session core
    reads.  [u_password] stands for the stored bcrypt hash: it names the
    password whose hash is stored. *)
Record UserDoc : Type := mkUserDoc {
  u_id : UserId;
  u_email : string;
  u_password : string;
  u_name : string;
  u_createdAt : Z;
  u_lastLogin : option Z
}.

(** Everything a request handler can read or change. *)
Record World : Type := mkWorld {
  clock : Z;
  refreshTokens : list RefreshRecord;
  users : list UserDoc;
  faults : list bool;
  next_oid : nat
}.

Definition set_refreshTokens (l : list RefreshRecord) (w : World) : World :=
  mkWorld (clock w) l (users w) (faults w) (next_oid w).

Definition set_users (l : list UserDoc) (w : World) : World :=
  mkWorld (clock w) (refreshTokens w) l (faults w) (next_oid w).

Definition set_faults (f : list bool) (w : World) : World :=
  mkWorld (clock w) (refreshTokens w) (users w) f (next_oid w).

Definition set_next_oid (n : nat) (w : World) : World :=
  mkWorld (clock w) (refreshTokens w) (users w) (faults w) n.

(** ** The effect monad: state that survives a throw *)

Definition M (A : Type) : Type := World -> Outcome A * World.

Definition ret {A} (a : A) : M A := fun w => (Return a, w).

Definition bind {A B} (c : M A) (k : A -> M B) : M B :=
  fun w =>
    match c w with
    | (Return a, w') => k a w'
    | (Throw e, w') => (Throw e, w')
    end.

(** [try { body } catch (error) { handler }] *)
Definition try_catch {A} (body : M A) (handler : Error -> M A) : M A :=
  fun w =>
    match body w with
    | (Return a, w') => (Return a, w')
    | (Throw e, w') => handler e w'
    end.

Definition lift {A} (o : Outcome A) : M A := fun w => (o, w).

Definition get_world : M World := fun w => (Return w, w).

Definition modify (f : World -> World) : M unit := fun w => (Return tt, f w).

(** [Date.now()] / [new Date()] *)
Definition date_now : M Z := fun w => (Return (clock w), w).

Declare Scope js_scope.
Delimit Scope js_scope with js.
Notation "x <- c1 ;; c2" := (bind c1 (fun x => c2))
  (at level 61, c1 at next level, right associativity) : js_scope.
Notation "c1 ;; c2" := (bind c1 (fun _ => c2))
  (at level 61, right associativity) : js_scope.
Local Open Scope js_scope.

(** ** Two predicates on computations *)

(** Whenever [c] returns, the value satisfies [P]. *)
Definition always {A} (P : A -> Prop) (c : M A) : Prop :=
  forall w, match fst (c w) with
            | Return a => P a
            | Throw _ => True
            end.

(** [c] returns in every world, and the value satisfies [P]. *)
Definition total {A} (P : A -> Prop) (c : M A) : Prop :=
  forall w, exists a w', c w = (Return a, w') /\ P a.

(** ** Persistence *)

Definition mongoError : Error :=
  libError "MongoNetworkError" "connection lost".

(** Whether the next round trip to the database fails. *)
Definition next_fault (w : World) : bool :=
  match faults w with
  | f :: _ => f
  | [] => false
  end.

(** The world once a round trip has been spent. *)
Definition spent (w : World) : World := set_faults (tl (faults w)) w.

(** One round trip to the database: it consumes the next entry of the fault
    schedule and throws when that entry says so. *)
Definition db_call : M unit :=
  fun w =>
    (if next_fault w then Throw mongoError else Return tt, spent w).

(** [RefreshToken.create({ token, user, expiresAt, userAgent, ipAddress })]:
    [isRevoked] and [createdAt] take their schema defaults. *)
Definition RefreshToken_create (tok : token) (user : UserId) (expiresAt : Z)
    (userAgent ipAddress : string) : M RefreshRecord :=
  db_call ;;
  w <- get_world ;;
  let doc := mkRefreshRecord (next_oid w) tok user expiresAt false (clock w)
               userAgent ipAddress in
  modify (fun w => set_next_oid (S (next_oid w))
                     (set_refreshTokens (refreshTokens w ++ [doc]) w)) ;;
  ret doc.

(** The filter [{ user: id, isRevoked: false }].  An undefined id matches no
    document, since [user] is required on every document. *)
Definition matches_active (user : option UserId) (r : RefreshRecord) : bool :=
  match user with
  | Some u => Nat.eqb (rt_user r) u && negb (rt_isRevoked r)
  | None => false
  end.

(** [RefreshToken.findOne({ user, isRevoked: false }).populate('user')]: the
    first matching document in collection order; populating it is a second
    round trip. *)
Definition RefreshToken_findOne (user : option UserId)
    : M (option RefreshRecord) :=
  db_call ;;
  w <- get_world ;;
  match find (matches_active user) (refreshTokens w) with
  | Some doc => db_call ;; ret (Some doc)
  | None => ret None
  end.

Definition revoke (r : RefreshRecord) : RefreshRecord :=
  mkRefreshRecord (rt_id r) (rt_token r) (rt_user r) (rt_expiresAt r) true
    (rt_createdAt r) (rt_userAgent r) (rt_ipAddress r).

(** [storedToken.isRevoked = true; await storedToken.save()]: writes the
    changed path of the document with that [_id]. *)
Definition save_revoked (doc : RefreshRecord) : M unit :=
  db_call ;;
  modify (fun w =>
    set_refreshTokens
      (map (fun r => if Nat.eqb (rt_id r) (rt_id doc) then revoke r else r)
           (refreshTokens w)) w).

(** [this.deleteMany(filter)]: returns [result.deletedCount]. *)
Definition deleteMany (p : RefreshRecord -> bool) : M Z :=
  db_call ;;
  w <- get_world ;;
  modify (set_refreshTokens (filter (fun r => negb (p r)) (refreshTokens w))) ;;
  ret (Z.of_nat (List.length (filter p (refreshTokens w)))).

(** [this.updateMany(filter, { $set: { isRevoked: true } })]: returns
    [result.modifiedCount], the matched documents whose flag changed. *)
Definition updateMany_revoke (p : RefreshRecord -> bool) : M Z :=
  db_call ;;
  w <- get_world ;;
  modify (set_refreshTokens
            (map (fun r => if p r then revoke r else r) (refreshTokens w))) ;;
  ret (Z.of_nat (List.length (filter (fun r => p r && negb (rt_isRevoked r))
                                (refreshTokens w)))).

(** The filter of the sweep: [$or: [{ expiresAt: { $lt: new Date() } },
    { isRevoked: true }]]. *)
Definition expired_or_revoked (now : Z) (r : RefreshRecord) : bool :=
  (rt_expiresAt r <? now) || rt_isRevoked r.

(** [refreshTokenSchema.statics.cleanupExpiredTokens] *)
Definition cleanupExpiredTokens : M Z :=
  try_catch
    (now <- date_now ;;
     deletedCount <- deleteMany (expired_or_revoked now) ;;
     ret deletedCount)
    (fun _ => ret 0).

(** [refreshTokenSchema.statics.revokeAllUserTokens] *)
Definition revokeAllUserTokens (userId : option UserId) : M Z :=
  try_catch
    (modifiedCount <- updateMany_revoke (matches_active userId) ;;
     ret modifiedCount)
    (fun _ => ret 0).

(** [User.findOne({ email }).select('+password')] *)
Definition User_findOne (email : string) : M (option UserDoc) :=
  db_call ;;
  w <- get_world ;;
  ret (find (fun u => String.eqb (u_email u) email) (users w)).

(** [User.findById(id).select('-password')] *)
Definition User_findById (id : option UserId) : M (option UserDoc) :=
  db_call ;;
  w <- get_world ;;
  ret (match id with
       | Some i => find (fun u => Nat.eqb (u_id u) i) (users w)
       | None => None
       end).

Definition set_lastLogin (t : Z) (u : UserDoc) : UserDoc :=
  mkUserDoc (u_id u) (u_email u) (u_password u) (u_name u) (u_createdAt u)
    (Some t).

(** [await user.save({ validateBeforeSave: false })] *)
Definition user_save (user : UserDoc) : M unit :=
  db_call ;;
  modify (fun w =>
    set_users (map (fun u => if Nat.eqb (u_id u) (u_id user) then user else u)
                   (users w)) w).

(** [user.comparePassword(candidate)]: bcrypt's comparison against the stored
    hash; a failure inside it is reported as a mismatch. *)
Definition comparePassword (user : UserDoc) (candidate : string) : bool :=
  String.eqb (u_password user) candidate.

(** ** Requests and responses *)

(** The value handed to [res.json].  Token strings keep their structure;
    object ids are shown as numbers and dates as epoch milliseconds. *)
Inductive json : Type :=
| JNull
| JBool (b : bool)
| JNum (n : Z)
| JStr (s : string)
| JTok (t : token)
| JObj (fields : list (string * json)).

(** One [res.cookie(name, value, options)] call. *)
Record Cookie : Type := mkCookie {
  c_name : string;
  c_value : token;
  c_expires : Z;
  c_httpOnly : bool;
  c_secure : bool;
  c_sameSite : string
}.

Record Response : Type := mkResponse {
  res_status : Z;
  res_cookies : list Cookie;
  res_cleared : list string;
  res_body : json
}.

(** The parts of [req] the handlers read: [req.cookies], the body properties
    [email], [password] and [refreshToken] (string valued), the headers
    'user-agent' and 'x-refresh-token', [req.ip],
    [req.connection.remoteAddress], and [req.userId] as left by the guard. *)
Record Request : Type := mkRequest {
  req_cookies : list (string * token);
  body_email : option string;
  body_password : option string;
  body_refreshToken : option token;
  header_userAgent : option string;
  header_xRefreshToken : option token;
  req_ip : option string;
  req_remoteAddress : option string;
  req_userId : option UserId
}.

(** [req.cookies[name]] *)
Definition cookie (name : string) (req : Request) : option token :=
  match find (fun kv => String.eqb (fst kv) name) (req_cookies req) with
  | Some kv => Some (snd kv)
  | None => None
  end.

(** [a || b] on possibly-undefined token strings. *)
Definition or_token (a b : option token) : option token :=
  match a with
  | Some t => if truthy t then Some t else b
  | None => b
  end.

(** [!!value] *)
Definition present (a : option token) : bool :=
  match a with
  | Some t => truthy t
  | None => false
  end.

(** What a handler does with a request: it sends a response or calls
    [next(err)]. *)
Inductive Reply : Type :=
| Sent (r : Response)
| Next (e : Error).

(** ** middleware/errorHandler.js *)

(** [new AppError(message, statusCode, code = null)].  [site] is the place
    of the [new] expression, which [Error.captureStackTrace] records in
    [stack]. *)
Definition AppError (msg : option string) (sc : option Z)
    (cd : option ErrCode) (site : string) : Error :=
  mkError "Error" (or_string msg "") sc cd
    (Some (match sc with
           | Some n => if (400 <=? n) && (n <? 500) then "fail" else "error"
           | None => "error"
           end))
    true [] ("Error: " ++ or_string msg "" ++ " at " ++ site)%string.

Definition is_word_char (c : ascii) : bool :=
  let n := nat_of_ascii c in
  ((48 <=? n) && (n <=? 57) || (65 <=? n) && (n <=? 90)
   || (97 <=? n) && (n <=? 122) || (n =? 95))%nat.

Fixpoint take_word (s : string) : string :=
  match s with
  | String c rest => if is_word_char c then String c (take_word rest) else ""
  | EmptyString => ""
  end.

(** [message.match(/index: (\w+)/)?.[1]]: the leftmost place where
    "index: " is followed by a word character, and the word there. *)
Fixpoint match_index (s : string) : option string :=
  match s with
  | EmptyString => None
  | String _ rest =>
      if String.prefix "index: " s
      then match take_word (String.substring 7 (String.length s - 7) s) with
           | EmptyString => match_index rest
           | w => Some w
           end
      else match_index rest
  end.

Fixpoint join_dot (l : list string) : string :=
  match l with
  | [] => ""
  | [x] => x
  | x :: rest => (x ++ ". " ++ join_dot rest)%string
  end.

Definition handleValidationError (err : Error) : Error :=
  AppError (Some (join_dot (errors err))) (Some 400)
    (Some (CodeText "VALIDATION_ERROR")) "errorHandler.js:52".

Definition handleDuplicateKeyError (err : Error) : Error :=
  let field := match match_index (message err) with
               | Some w => w
               | None => "field"
               end in
  AppError (Some ("A record with this " ++ field ++ " already exists.")%string)
    (Some 400) (Some (CodeText "DUPLICATE_KEY")) "errorHandler.js:65".

Definition handleCastError (err : Error) : Error :=
  AppError (Some "Invalid resource ID provided.") (Some 400)
    (Some (CodeText "INVALID_ID")) "errorHandler.js:76".

Definition handleJWTError : Error :=
  AppError (Some "Invalid token. Please login again.") (Some 401)
    (Some (CodeText "INVALID_TOKEN")) "errorHandler.js:83".

Definition handleJWTExpiration : Error :=
  AppError (Some "Session expired. Please login again.") (Some 401)
    (Some (CodeText "TOKEN_EXPIRED")) "errorHandler.js:90".

(** [error.code || 'SERVER_ERROR'] *)
Definition code_or_default (c : option ErrCode) : json :=
  match c with
  | Some (CodeText s) => if (s =? "")%string then JStr "SERVER_ERROR" else JStr s
  | Some (CodeNumber n) => if n =? 0 then JStr "SERVER_ERROR" else JNum n
  | None => JStr "SERVER_ERROR"
  end.

Definition is_name (nm : string) (err : Error) : bool :=
  String.eqb (name err) nm.

(** [errorHandler(err, req, res, next)].  [{ ...err }] copies the enumerable
    properties, of which [statusCode] and [code] are read below; [message]
    is assigned from [err]. *)
Definition errorHandler (env : Env) (err : Error) : Response :=
  let error := err in
  let error := if is_name "ValidationError" err
               then handleValidationError err else error in
  let error := match code err with
               | Some (CodeNumber 11000) => handleDuplicateKeyError err
               | _ => error
               end in
  let error := if is_name "CastError" err then handleCastError err else error in
  let error := if is_name "JsonWebTokenError" err
               then handleJWTError else error in
  let error := if is_name "TokenExpiredError" err
               then handleJWTExpiration else error in
  let statusCode := or_number (statusCode error) 500 in
  let message := or_string (Some (message error)) "Internal Server Error" in
  mkResponse statusCode [] []
    (JObj ([("success", JBool false);
            ("message", JStr message);
            ("code", code_or_default (code error))]
           ++ match NODE_ENV env with
              | Some "development" => [("stack", JStr (stack err))]
              | _ => []
              end)).

(** [asyncHandler(fn)]: a rejection of the handler's promise goes to
    [next]. *)
Definition asyncHandler (fn : M Reply) : M Reply :=
  try_catch fn (fun e => ret (Next e)).

(** A route mounted on the application: the wrapped handler, with the
    central error handler behind it. *)
Definition serve (env : Env) (fn : M Reply) : World -> Response * World :=
  fun w =>
    match asyncHandler fn w with
    | (Return (Sent r), w') => (r, w')
    | (Return (Next e), w') => (errorHandler env e, w')
    | (Throw e, w') => (errorHandler env e, w')
    end.

(** ** controllers/authController.js *)

(** The error every failing branch of the controller hands to [next]:
    [new AppError()] with no argument, made at line [site] of the file. *)
Definition bare (site : string) : Error :=
  AppError None None None ("authController.js:" ++ site)%string.

(** [jwt.sign({ id: userId }, process.env.JWT_SECRET,
    { expiresIn: process.env.JWT_EXPIRE || '15m' })] *)
Definition generateAccessToken (env : Env) (userId : UserId) (now : Z)
    : Outcome token :=
  sign (IdClaim userId) (JWT_SECRET env)
    (match JWT_EXPIRE env with Some s => s | None => 900 end) now.

(** [jwt.sign({ id: userId }, process.env.JWT_REFRESH_SECRET,
    { expiresIn: process.env.JWT_REFRESH_EXPIRE || '7d' })] *)
Definition generateRefreshToken (env : Env) (userId : UserId) (now : Z)
    : Outcome token :=
  sign (IdClaim userId) (JWT_REFRESH_SECRET env)
    (match JWT_REFRESH_EXPIRE env with Some s => s | None => 604800 end) now.

Definition isProduction (env : Env) : bool :=
  match NODE_ENV env with
  | Some s => String.eqb s "production"
  | None => false
  end.

(** [Date.now() + parseInt(process.env.JWT_EXPIRE_MINUTES || '15') * 60 * 1000] *)
Definition accessTokenExpiry (env : Env) (now : Z) : Z :=
  now + (match JWT_EXPIRE_MINUTES env with Some m => m | None => 15 end)
        * 60 * 1000.

(** The cookie carrying the access token, with its options. *)
Definition tokenCookie (env : Env) (accessToken : token) (now : Z) : Cookie :=
  mkCookie "token" accessToken (accessTokenExpiry env now) true
    (isProduction env) (if isProduction env then "none" else "lax").

(** [expiresAt.setDate(expiresAt.getDate() + 7)], on a clock without
    daylight-saving shifts. *)
Definition sevenDaysLater (now : Z) : Z := now + 7 * 24 * 60 * 60 * 1000.

(** [user.getPublicProfile()] *)
Definition getPublicProfile (u : UserDoc) : json :=
  JObj [("id", JNum (Z.of_nat (u_id u)));
        ("email", JStr (u_email u));
        ("name", JStr (u_name u));
        ("createdAt", JNum (u_createdAt u));
        ("lastLogin", match u_lastLogin u with
                      | Some t => JNum t
                      | None => JNull
                      end)].

(** The block that [sendTokenResponse] and [refreshToken] both contain to
    write a refresh record: the stored [token] field is
    [jwt.sign({ token: refreshToken }, JWT_REFRESH_SECRET,
    { expiresIn: '7d' })], the expiry seven days ahead, the device data
    taken from the request. *)
Definition storeRefreshToken (env : Env) (refreshToken : token)
    (user : UserId) (req : Request) : M RefreshRecord :=
  now <- date_now ;;
  hashedToken <- lift (sign (TokenClaim refreshToken) (JWT_REFRESH_SECRET env)
                         604800 now) ;;
  let expiresAt := sevenDaysLater now in
  RefreshToken_create hashedToken user expiresAt
    (or_string (header_userAgent req) "Unknown")
    (or_string (or_opt_string (req_ip req) (req_remoteAddress req)) "Unknown").

(** The body of the answer of login and register. *)
Definition issuedBody (user : UserDoc) (accessToken : token) : json :=
  JObj [("success", JBool true);
        ("message", JStr "Authentication successful");
        ("data", JObj [("user", getPublicProfile user);
                       ("accessToken", JTok accessToken)])].

(** [sendTokenResponse(user, statusCode, refreshToken, req, res)] *)
Definition sendTokenResponse (env : Env) (user : UserDoc) (statusCode : Z)
    (refreshToken : option token) (req : Request) : M Response :=
  now <- date_now ;;
  accessToken <- lift (generateAccessToken env (u_id user) now) ;;
  (if present refreshToken
   then match refreshToken with
        | Some rt =>
            try_catch
              (storeRefreshToken env rt (u_id user) req ;; ret tt)
              (fun _ => ret tt)
        | None => ret tt
        end
   else ret tt) ;;
  let user := set_lastLogin now user in
  user_save user ;;
  ret (mkResponse statusCode [tokenCookie env accessToken now] []
         (issuedBody user accessToken)).

Definition nonempty (s : option string) : bool :=
  match s with
  | Some t => negb (t =? "")%string
  | None => false
  end.

(** [login], before [asyncHandler] wraps it. *)
Definition login_body (env : Env) (req : Request) : M Reply :=
  if negb (nonempty (body_email req)) || negb (nonempty (body_password req))
  then ret (Next (bare "160"))
  else
    user <- User_findOne (or_string (body_email req) "") ;;
    match user with
    | None => ret (Next (bare "168"))
    | Some user =>
        if negb (comparePassword user (or_string (body_password req) ""))
        then ret (Next (bare "176"))
        else
          now <- date_now ;;
          refreshToken <- lift (generateRefreshToken env (u_id user) now) ;;
          r <- sendTokenResponse env user 200 (Some refreshToken) req ;;
          ret (Sent r)
    end.

Definition login (env : Env) (req : Request) : M Reply :=
  asyncHandler (login_body env req).

(** [logout], before [asyncHandler] wraps it. *)
Definition logout_body (env : Env) (req : Request) : M Reply :=
  (match header_xRefreshToken req with
   | Some refreshTokenValue =>
       if truthy refreshTokenValue
       then try_catch
              (now <- date_now ;;
               lift (verify refreshTokenValue (JWT_REFRESH_SECRET env) now) ;;
               revokeAllUserTokens (req_userId req) ;;
               ret tt)
              (fun _ => ret tt)
       else ret tt
   | None => ret tt
   end) ;;
  ret (Sent (mkResponse 200 [] ["token"]
               (JObj [("success", JBool true);
                      ("message", JStr "Logged out successfully")]))).

Definition logout (env : Env) (req : Request) : M Reply :=
  asyncHandler (logout_body env req).

(** The body of the 200 answer of the refresh route. *)
Definition refreshedBody (accessToken : token) : json :=
  JObj [("success", JBool true);
        ("message", JStr "Token refreshed successfully");
        ("data", JObj [("accessToken", JTok accessToken)])].

(** [refreshToken], before [asyncHandler] wraps it. *)
Definition refreshToken_body (env : Env) (req : Request) : M Reply :=
  match or_token (cookie "refreshToken" req) (body_refreshToken req) with
  | None => ret (Next (bare "237"))
  | Some refreshTokenValue =>
      if negb (truthy refreshTokenValue)
      then ret (Next (bare "237"))
      else
        try_catch
          (now <- date_now ;;
           decoded <- lift (verify refreshTokenValue (JWT_REFRESH_SECRET env)
                              now) ;;
           storedToken <- RefreshToken_findOne (d_id decoded) ;;
           match storedToken, d_id decoded with
           | Some storedToken, Some id =>
               if rt_expiresAt storedToken <? now
               then
                 save_revoked storedToken ;;
                 ret (Next (bare "259"))
               else
                 newRefreshToken <- lift (generateRefreshToken env id now) ;;
                 save_revoked storedToken ;;
                 accessToken <- lift (generateAccessToken env id now) ;;
                 storeRefreshToken env newRefreshToken id req ;;
                 ret (Sent (mkResponse 200 [tokenCookie env accessToken now] []
                              (refreshedBody accessToken)))
           | _, _ => ret (Next (bare "252"))
           end)
          (fun _ => ret (Next (bare "315")))
  end.

Definition refreshToken (env : Env) (req : Request) : M Reply :=
  asyncHandler (refreshToken_body env req).

(** ** middleware/auth.js *)

(** The guard either answers the request itself or attaches the user and
    calls [next()]. *)
Inductive Guarded : Type :=
| Rejected (r : Response)
| Attached (user : UserDoc) (userId : UserId).

Definition unauthorized (msg : string) (cd : option string) : Response :=
  mkResponse 401 [] []
    (JObj ([("success", JBool false); ("message", JStr msg)]
           ++ match cd with
              | Some c => [("code", JStr c)]
              | None => []
              end)).

(** [authenticate(req, res, next)] *)
Definition authenticate (env : Env) (req : Request) : M Guarded :=
  try_catch
    (if negb (present (cookie "token" req))
     then ret (Rejected (unauthorized "Authentication required. Please login."
                           None))
     else
       match cookie "token" req with
       | None => ret (Rejected (unauthorized
                                  "Authentication required. Please login." None))
       | Some tok =>
           now <- date_now ;;
           decoded <- lift (verify tok (JWT_SECRET env) now) ;;
           user <- User_findById (d_id decoded) ;;
           match user with
           | None => ret (Rejected (unauthorized
                                      "User not found. Please login again." None))
           | Some user => ret (Attached user (u_id user))
           end
       end)
    (fun error =>
       if is_name "TokenExpiredError" error
       then ret (Rejected (unauthorized "Session expired. Please login again."
                             (Some "TOKEN_EXPIRED")))
       else if is_name "JsonWebTokenError" error
       then ret (Rejected (unauthorized "Invalid token. Please login again."
                             (Some "INVALID_TOKEN")))
       else ret (Rejected (unauthorized "Authentication failed. Please login."
                             None))).

(** ** Reading answers and stored rows *)

(** [body[k]] of a JSON object. *)
Definition field (k : string) (j : json) : option json :=
  match j with
  | JObj fields =>
      match find (fun kv => String.eqb (fst kv) k) fields with
      | Some kv => Some (snd kv)
      | None => None
      end
  | _ => None
  end.

(** The two replies of the refresh route. *)
Definition refresh_reply (env : Env) (rp : Reply) : Prop :=
  (exists site, rp = Next (bare site))
  \/ exists accessToken now,
       rp = Sent (mkResponse 200 [tokenCookie env accessToken now] []
                    (refreshedBody accessToken)).

(** The answers of login and register. *)
Definition issued_response (env : Env) (statusCode : Z) (r : Response) : Prop :=
  exists accessToken now user,
    r = mkResponse statusCode [tokenCookie env accessToken now] []
          (issuedBody user accessToken).

(** The ledger once the row [st] has been saved as revoked. *)
Definition revoke_row (st : RefreshRecord) (l : list RefreshRecord)
    : list RefreshRecord :=
  map (fun r => if Nat.eqb (rt_id r) (rt_id st) then revoke r else r) l.

(** What a row stores about a credential: the [token] field and the owner. *)
Definition stored (r : RefreshRecord) : token * UserId :=
  (rt_token r, rt_user r).

(** The ledger [l'] keeps the stored credentials of [l], in order, and adds
    rows that all satisfy [P]. *)
Definition grows (P : token * UserId -> Prop) (l l' : list RefreshRecord)
    : Prop :=
  exists extra, map stored l' = map stored l ++ extra /\ Forall P extra.

(** Every run of [c] lets the ledger grow by rows satisfying [P]. *)
Definition appends {A} (P : token * UserId -> Prop) (c : M A) : Prop :=
  forall w, grows P (refreshTokens w) (refreshTokens (snd (c w))).

(** Reading the refresh token back out of a stored [token] field:
    [jwt.decode(field).token].  No key is involved. *)
Definition recover_token (field : token) : option token :=
  match decode field with
  | Some d => d_token d
  | None => None
  end.

(** The stored field gives back, without a key, a refresh token that
    [generateRefreshToken] mints for the owner of the row. *)
Definition minted (env : Env) (s : token * UserId) : Prop :=
  exists raw now,
    recover_token (fst s) = Some raw
    /\ generateRefreshToken env (snd s) now = Return raw.

(** ** The rest of the controller, the guard and the routes *)

(** [new TypeError(msg)], as the runtime throws it. *)
Definition typeError (msg : string) : Error := libError "TypeError" msg.

(** [req.userId = user._id], as the guard leaves it. *)
Definition set_userId (id : UserId) (req : Request) : Request :=
  mkRequest (req_cookies req) (body_email req) (body_password req)
    (body_refreshToken req) (header_userAgent req) (header_xRefreshToken req)
    (req_ip req) (req_remoteAddress req) (Some id).

(** The body of the answer of [getMe]. *)
Definition meBody (user : UserDoc) : json :=
  JObj [("success", JBool true);
        ("data", JObj [("user", getPublicProfile user)])].

(** [getMe], before [asyncHandler] wraps it.  [user.getPublicProfile()] on
    a [null] user throws. *)
Definition getMe_body (env : Env) (req : Request) : M Reply :=
  user <- User_findById (req_userId req) ;;
  match user with
  | Some user => ret (Sent (mkResponse 200 [] [] (meBody user)))
  | None =>
      lift (Throw (typeError
        "Cannot read properties of null (reading 'getPublicProfile')"))
  end.

Definition getMe (env : Env) (req : Request) : M Reply :=
  asyncHandler (getMe_body env req).

(** [optionalAuth(req, res, next)]: it always calls [next()]; the result is
    what it attached to the request, if anything. *)
Definition optionalAuth (env : Env) (req : Request)
    : M (option (UserDoc * UserId)) :=
  try_catch
    (match cookie "token" req with
     | Some tok =>
         if truthy tok
         then
           now <- date_now ;;
           decoded <- lift (verify tok (JWT_SECRET env) now) ;;
           user <- User_findById (d_id decoded) ;;
           match user with
           | Some user => ret (Some (user, u_id user))
           | None => ret None
           end
         else ret None
     | None => ret None
     end)
    (fun _ => ret None).

(** [requireActiveUser(req, res, next)]: the answer it sends, or [None]
    when it calls [next()]. *)
Definition requireActiveUser (user : option UserDoc) : option Response :=
  match user with
  | None => Some (unauthorized "User not authenticated" None)
  | Some _ => None
  end.

(** [notFoundHandler]: the error it hands to [next]. *)
Definition notFoundHandler (originalUrl : string) : Error :=
  AppError (Some ("Route " ++ originalUrl ++ " not found")%string) (Some 404)
    (Some (CodeText "NOT_FOUND")) "errorHandler.js:157".

(** A route declared as [router.METHOD(path, authenticate, handler)]: the
    guard answers, or attaches the user and lets the handler run. *)
Definition guarded (env : Env) (handler : Env -> Request -> M Reply)
    (req : Request) : World -> Response * World :=
  fun w =>
    match authenticate env req w with
    | (Return (Rejected r), w') => (r, w')
    | (Return (Attached user userId), w') =>
        serve env (handler env (set_userId userId req)) w'
    | (Throw e, w') => (errorHandler env e, w')
    end.

(** [router.get('/me', authenticate, getMe)] *)
Definition route_me (env : Env) (req : Request) : World -> Response * World :=
  guarded env getMe req.

(** [router.post('/logout', authenticate, logout)] *)
Definition route_logout (env : Env) (req : Request)
    : World -> Response * World :=
  guarded env logout req.

(** ** Predicates used to state what the handlers keep *)

(** No failure of the database is scheduled. *)
Definition healthy (w : World) : Prop := faults w = [].

(** A row as it can be after a handler touched it: untouched, or with only
    the revoked flag turned on. *)
Definition kept (r r' : RefreshRecord) : Prop := r' = r \/ r' = revoke r.

(** The ledger [l'] holds every row of [l], in order and kept, followed by
    new rows. *)
Definition extends (l l' : list RefreshRecord) : Prop :=
  exists old new, l' = old ++ new /\ Forall2 kept l old.

(** Every run of [c] takes a world to one related to it by [R]. *)
Definition respects {A} (R : World -> World -> Prop) (c : M A) : Prop :=
  forall w, R w (snd (c w)).

(** Row ids are pairwise distinct and below the id generator. *)
Definition fresh_ids (w : World) : Prop :=
  NoDup (map rt_id (refreshTokens w))
  /\ Forall (fun r => (rt_id r < next_oid w)%nat) (refreshTokens w).

(** Every run of [c] keeps the invariant [I] of the world. *)
Definition preserves {A} (I : World -> Prop) (c : M A) : Prop :=
  respects (fun w w' => I w -> I w') c.

(** The rows of [l] that the filter [{ user, isRevoked: false }] matches. *)
Definition active_rows (user : UserId) (l : list RefreshRecord)
    : list RefreshRecord :=
  filter (matches_active (Some user)) l.

(** The members of a JSON object. *)
Definition keys (j : json) : list string :=
  match j with
  | JObj fields => map fst fields
  | _ => []
  end.

(** ** What the further properties speak of *)

(** The ledger of [w'] extends the one of [w]. *)
Definition ledger_extends (w w' : World) : Prop :=
  extends (refreshTokens w) (refreshTokens w').

(** Row ids that are fresh in [w] are fresh in [w']. *)
Definition keeps_fresh (w w' : World) : Prop := fresh_ids w -> fresh_ids w'.

(** The worlds [w] and [w'] hold the same data: at most the fault schedule
    moved on. *)
Definition same_data (w w' : World) : Prop :=
  clock w' = clock w
  /\ refreshTokens w' = refreshTokens w
  /\ users w' = users w
  /\ next_oid w' = next_oid w.

(** The cookie jar of a browser that received [r] and held nothing else. *)
Definition cookies_of (r : Response) : list (string * token) :=
  map (fun c => (c_name c, c_value c)) (res_cookies r).

(** The lifetime of an access token, in seconds:
    [process.env.JWT_EXPIRE || '15m']. *)
Definition accessTtl (env : Env) : Z :=
  match JWT_EXPIRE env with Some s => s | None => 900 end.

(** The lifetime of a refresh token, in seconds:
    [process.env.JWT_REFRESH_EXPIRE || '7d']. *)
Definition refreshTtl (env : Env) : Z :=
  match JWT_REFRESH_EXPIRE env with Some s => s | None => 604800 end.


(** The two secrets of the environment are the same string. *)
Definition sameSecret (env : Env) : bool :=
  String.eqb (or_string (JWT_SECRET env) "")
    (or_string (JWT_REFRESH_SECRET env) "").

(** [process.env.NODE_ENV === 'development'] *)
Definition isDevelopment (env : Env) : bool :=
  match NODE_ENV env with
  | Some s => String.eqb s "development"
  | None => false
  end.





End Server.

(* ================================================================== *)
(** * The client: api/index.ts *)
(* ================================================================== *)

Module Client.

(** A value of a parsed JSON body, or [undefined].  Numbers are integers. *)
Inductive jsval : Type :=
| VUndefined
| VNull
| VBool (b : bool)
| VNum (n : Z)
| VStr (s : string)
| VArr (items : list jsval)
| VObj (fields : list (string * jsval)).

(** The value used as a condition. *)
Definition truthy (v : jsval) : bool :=
  match v with
  | VUndefined | VNull => false
  | VBool b => b
  | VNum n => negb (n =? 0)
  | VStr s => negb (s =? "")%string
  | VArr _ | VObj _ => true
  end.

(** [String(v)], the conversion [localStorage.setItem] and a template
    literal apply. *)
Fixpoint toString (v : jsval) : string :=
  match v with
  | VUndefined => "undefined"
  | VNull => "null"
  | VBool true => "true"
  | VBool false => "false"
  | VNum n => NilZero.string_of_int (Z.to_int n)
  | VStr s => s
  | VArr items =>
      (fix join (l : list jsval) : string :=
         match l with
         | [] => ""
         | x :: rest =>
             let sx := match x with
                       | VUndefined | VNull => ""
                       | _ => toString x
                       end in
             match rest with
             | [] => sx
             | _ :: _ => (sx ++ "," ++ join rest)%string
             end
         end) items
  | VObj _ => "[object Object]"
  end.

Fixpoint assoc (k : string) (fields : list (string * jsval)) : jsval :=
  match fields with
  | [] => VUndefined
  | (k', v) :: rest => if String.eqb k' k then v else assoc k rest
  end.

(** [v.k] for a member name [k] of the body ('data', 'accessToken'), on a
    value that is neither [null] nor [undefined]: objects answer with the
    member, every other value with [undefined]. *)
Definition member (v : jsval) (k : string) : jsval :=
  match v with
  | VObj fields => assoc k fields
  | _ => VUndefined
  end.

Definition nullish (v : jsval) : bool :=
  match v with
  | VUndefined | VNull => true
  | _ => false
  end.

(** [v?.k] *)
Definition opt_member (v : jsval) (k : string) : jsval :=
  if nullish v then VUndefined else member v k.

(** The request configuration: the url, the Authorization header, and the
    [_retry] mark (absent reads as false). *)
Record Config : Type := mkConfig {
  url : string;
  authorization : option string;
  _retry : bool
}.

Definition set_authorization (h : string) (c : Config) : Config :=
  mkConfig (url c) (Some h) (_retry c).

Definition mark_retry (c : Config) : Config :=
  mkConfig (url c) (authorization c) true.

(** What a rejected call carries: an axios error with the response status
    when there was a response, or a TypeError raised locally. *)
Inductive Failure : Type :=
| AxiosError (status : option Z) (message : string)
| TypeError (message : string).

Definition response_status (e : Failure) : option Z :=
  match e with
  | AxiosError st _ => st
  | TypeError _ => None
  end.

(** What the interceptors do to the outside. *)
Inductive Effect : Type :=
| PostRefresh
| Resend (config : Config)
| RejectWith (config : Config) (error : Failure)
| DispatchLogout.

(** The module state: [isRefreshing], [failedQueue] (each entry is the pair
    of continuations of one request, named by that request), the
    'accessToken' slot of localStorage, the handler suspended at the
    [await] of the refresh call, and the effects so far. *)
Record State : Type := mkState {
  isRefreshing : bool;
  failedQueue : list Config;
  accessToken : option string;
  awaiting : option Config;
  effects : list Effect
}.

Definition initial : State := mkState false [] None None [].

(** The request interceptor. *)
Definition onRequest (st : State) (config : Config) : Config :=
  match accessToken st with
  | Some token =>
      if negb (token =? "")%string
      then set_authorization ("Bearer " ++ token)%string config
      else config
  | None => config
  end.

(** [api(config)]: the request leaves through the request interceptor. *)
Definition api (st : State) (config : Config) : Effect :=
  Resend (onRequest st config).

(** [localStorage.setItem('accessToken', v)] and [removeItem]. *)
Definition set_accessToken (t : option string) (st : State) : State :=
  mkState (isRefreshing st) (failedQueue st) t (awaiting st) (effects st).

(** The response interceptor, success side; [data] is [response.data]. *)
Definition onFulfilled (data : jsval) (st : State) : State :=
  let token := opt_member (opt_member data "data") "accessToken" in
  if truthy token
  then set_accessToken (Some (toString token)) st
  else st.

(** [processQueue(error, token)]: settles every queued continuation and
    empties the queue.  The continuations run after the current handler has
    finished, in the order they were queued: a resolved entry sets its
    header and calls [api], a rejected one rejects its caller.  They are
    returned as the second component. *)
Definition processQueue (error : option Failure) (token : jsval) (st : State)
    : State * list Effect :=
  (mkState (isRefreshing st) [] (accessToken st) (awaiting st) (effects st),
   map (fun prom =>
          match error with
          | Some e => RejectWith prom e
          | None =>
              api st (set_authorization ("Bearer " ++ toString token)%string
                        prom)
          end) (failedQueue st)).

Definition is401 (status : option Z) : bool :=
  match status with
  | Some s => s =? 401
  | None => false
  end.

(** The response interceptor, error side, up to its [await]. *)
Definition onRejected (error : Failure) (originalRequest : Config) (st : State)
    : State :=
  if is401 (response_status error) && negb (_retry originalRequest)
  then
    if isRefreshing st
    then mkState (isRefreshing st) (failedQueue st ++ [originalRequest])
           (accessToken st) (awaiting st) (effects st)
    else mkState true (failedQueue st) (accessToken st)
           (Some (mark_retry originalRequest)) (effects st ++ [PostRefresh])
  else mkState (isRefreshing st) (failedQueue st) (accessToken st)
         (awaiting st) (effects st ++ [RejectWith originalRequest error]).

(** [const { accessToken } = response.data.data], which throws on a missing
    [data] level. *)
Definition destructure (data : jsval) : Failure + jsval :=
  if nullish data
  then inl (TypeError "Cannot read properties of undefined (reading 'data')")
  else if nullish (member data "data")
  then inl (TypeError "Cannot destructure property 'accessToken'")
  else inr (member (member data "data") "accessToken").

(** The [catch] block and the [finally] after it. *)
Definition refreshFailed (refreshError : Failure) (originalRequest : Config)
    (st : State) : State :=
  let (st, later) := processQueue (Some refreshError) VNull st in
  mkState false (failedQueue st) None None
    (effects st ++ [DispatchLogout] ++ later
     ++ [RejectWith originalRequest refreshError]).

(** The [try] block after the [await] and the [finally] after it. *)
Definition refreshSucceeded (token : jsval) (originalRequest : Config)
    (st : State) : State :=
  let st := mkState (isRefreshing st) (failedQueue st) (Some (toString token))
              (awaiting st) (effects st) in
  let (st, later) := processQueue None token st in
  mkState false (failedQueue st) (accessToken st) None
    (effects st
     ++ [api st (set_authorization ("Bearer " ++ toString token)%string
                   originalRequest)]
     ++ later).

(** The suspended handler resumes when the refresh call settles:
    [inr data] is a response with body [data], [inl e] a rejection. *)
Definition onRefreshSettled (outcome : Failure + jsval) (st : State) : State :=
  match awaiting st with
  | None => st
  | Some originalRequest =>
      match outcome with
      | inl e => refreshFailed e originalRequest st
      | inr data =>
          match destructure data with
          | inl e => refreshFailed e originalRequest st
          | inr token => refreshSucceeded token originalRequest st
          end
      end
  end.

(** How the refresh call ends for the suspended handler: with the token
    taken from the response, or with the error that reaches its [catch]. *)
Definition refreshResult (outcome : Failure + jsval) : Failure + jsval :=
  match outcome with
  | inl e => inl e
  | inr data => destructure data
  end.

(** [originalRequest.headers.Authorization = `Bearer ${token}`] *)
Definition bearer (token : jsval) (c : Config) : Config :=
  set_authorization ("Bearer " ++ toString token)%string c.

(** A request that has not been marked as retried. *)
Definition unretried (c : Config) : Prop := _retry c = false.

(** Every request of the list meets an authorization failure, in turn. *)
Definition fail_all (reqs : list Config) (st : State) : State :=
  fold_left (fun st c => onRejected (AxiosError (Some 401) "Unauthorized") c st)
    reqs st.

Definition count_refresh_calls (l : list Effect) : nat :=
  List.length (filter (fun e => match e with PostRefresh => true | _ => false end) l).

(** ** Events of the client, and api/authService.ts *)

(** What can reach the interceptors: a response on the success side, a
    failed request, or the settlement of the refresh call in flight. *)
Inductive Event : Type :=
| ResponseOk (data : jsval)
| ResponseError (error : Failure) (config : Config)
| RefreshSettled (outcome : Failure + jsval).

Definition step (ev : Event) (st : State) : State :=
  match ev with
  | ResponseOk data => onFulfilled data st
  | ResponseError error config => onRejected error config st
  | RefreshSettled outcome => onRefreshSettled outcome st
  end.

Definition run (evs : list Event) (st : State) : State :=
  fold_left (fun st ev => step ev st) evs st.

Definition count_settled (evs : list Event) : nat :=
  List.length (filter (fun ev => match ev with
                                 | RefreshSettled _ => true
                                 | _ => false
                                 end) evs).

(** The control part of the state is coherent: a handler is suspended
    exactly while [isRefreshing] is set, and nothing is queued when idle. *)
Definition coherent (st : State) : Prop :=
  (isRefreshing st = true <-> awaiting st <> None)
  /\ (isRefreshing st = false -> failedQueue st = []).




(** [authService.logout], likewise: it removes the slot and returns
    [response.data]. *)
Definition authService_logout (data : jsval) (st : State) : jsval * State :=
  (data, set_accessToken None (onFulfilled data st)).

(** ** What the further properties speak of *)

(** The failure of a request answered 401. *)
Definition e401 : Failure := AxiosError (Some 401) "Unauthorized".

(** One for a refresh call in flight, zero otherwise. *)
Definition in_flight (st : State) : nat :=
  if isRefreshing st then 1%nat else 0%nat.

(** The failed requests among the events, and the requests handed back,
    sent again or rejected, among the effects. *)
Definition count_failures (evs : list Event) : nat :=
  List.length (filter (fun ev => match ev with
                                 | ResponseError _ _ => true
                                 | _ => false
                                 end) evs).

Definition count_answered (l : list Effect) : nat :=
  List.length (filter (fun e => match e with
                                | Resend _ | RejectWith _ _ => true
                                | _ => false
                                end) l).

End Client.


(* ================================================================== *)
(** * The client store: store/slices/authSlice.ts and the route guards *)
(* ================================================================== *)

Module Store.

(** The [User] of types/index.ts. *)
Record User : Type := mkUser {
  id : string;
  email : string;
  name : string;
  createdAt : string;
  lastLogin : option string
}.

Record AuthState : Type := mkAuthState {
  user : option User;
  isAuthenticated : bool;
  isLoading : bool;
  error : option string
}.

Definition initialState : AuthState := mkAuthState None false false None.

(** The actions the slice reacts to; [Other] is any other action. *)
Inductive Action : Type :=
| clearError
| setUser (payload : User)
| register_pending
| register_fulfilled (payload : User)
| register_rejected (payload : option string)
| login_pending
| login_fulfilled (payload : User)
| login_rejected (payload : option string)
| logout_fulfilled
| getCurrentUser_pending
| getCurrentUser_fulfilled (payload : User)
| getCurrentUser_rejected
| Other.

(** The reducer of [authSlice]: [reducers] and [extraReducers]. *)
Definition reducer (state : AuthState) (action : Action) : AuthState :=
  match action with
  | clearError =>
      mkAuthState (user state) (isAuthenticated state) (isLoading state) None
  | setUser payload =>
      mkAuthState (Some payload) true (isLoading state) (error state)
  | register_pending | login_pending =>
      mkAuthState (user state) (isAuthenticated state) true None
  | register_fulfilled payload | login_fulfilled payload =>
      mkAuthState (Some payload) true false (error state)
  | register_rejected payload | login_rejected payload =>
      mkAuthState (user state) (isAuthenticated state) false payload
  | logout_fulfilled =>
      mkAuthState None false (isLoading state) None
  | getCurrentUser_pending =>
      mkAuthState (user state) (isAuthenticated state) true (error state)
  | getCurrentUser_fulfilled payload =>
      mkAuthState (Some payload) true false (error state)
  | getCurrentUser_rejected =>
      mkAuthState None false false (error state)
  | Other => state
  end.

Definition reduce (actions : list Action) (state : AuthState) : AuthState :=
  fold_left reducer actions state.

(** What a route wrapper renders. *)
Inductive Rendered : Type :=
| Spinner
| Navigate (to : string)
| Children.

(** [ProtectedRoute] of App.tsx *)
Definition ProtectedRoute (state : AuthState) : Rendered :=
  if isLoading state then Spinner
  else if negb (isAuthenticated state) then Navigate "/login"
  else Children.

(** [PublicRoute] of App.tsx *)
Definition PublicRoute (state : AuthState) : Rendered :=
  if isLoading state then Spinner
  else if isAuthenticated state then Navigate "/dashboard"
  else Children.

(** The store says authenticated exactly when it holds a user. *)
Definition settled (state : AuthState) : Prop :=
  isAuthenticated state = true <-> user state <> None.

End Store.

(* ================================================================== *)
(** * Concrete inputs used below *)
(* ================================================================== *)

Module Fixtures.
Import Js Jwt Server.

Definition env0 : Env :=
  mkEnv (Some "production") (Some "access-secret") (Some "refresh-secret")
    None None None.

Definition ann : UserDoc := mkUserDoc 1%nat "a@b.com" "secret1" "Ann" 0 None.

(** Some instant, in epoch milliseconds. *)
Definition t0 : Z := 1700000000000.

(** A fresh database holding one user, with no fault scheduled. *)
Definition world0 : World := mkWorld t0 [] [ann] [] 0%nat.

Definition at_time (t : Z) (w : World) : World :=
  mkWorld t (refreshTokens w) (users w) (faults w) (next_oid w).

Definition with_faults (f : list bool) (w : World) : World := set_faults f w.

Definition loginRequest : Request :=
  mkRequest [] (Some "a@b.com") (Some "secret1") None (Some "Mozilla/5.0")
    None (Some "10.0.0.7") None None.

(** The refresh token minted for Ann by a login at [t0]. *)
Definition tokenA : token :=
  Signed (IdClaim 1%nat) (t0 / 1000) (t0 / 1000 + 604800) "refresh-secret".

(** What verifying [tokenA] returns. *)
Definition decodedA : Decoded :=
  mkDecoded (IdClaim 1%nat) (t0 / 1000) (t0 / 1000 + 604800).

(** The access token minted for Ann at time [t]. *)
Definition accessAt (t : Z) : token :=
  Signed (IdClaim 1%nat) (t / 1000) (t / 1000 + 900) "access-secret".

(** The row a login at [t0] writes for Ann. *)
Definition storedRow : RefreshRecord :=
  mkRefreshRecord 0 (Signed (TokenClaim tokenA) (t0 / 1000)
                       (t0 / 1000 + 604800) "refresh-secret")
    1%nat (t0 + 604800000) false t0 "Mozilla/5.0" "10.0.0.7".

(** A refresh request presenting [tok] in the body. *)
Definition refreshRequest (tok : token) : Request :=
  mkRequest [] None None (Some tok) (Some "Mozilla/5.0") None
    (Some "10.0.0.7") None None.

(** The request a browser sends to the refresh route after it received [r]:
    the cookies [r] set, and the empty body the client posts. *)
Definition refreshRequestAfter (r : Response) : Request :=
  mkRequest (map (fun c => (c_name c, c_value c)) (res_cookies r))
    None None None (Some "Mozilla/5.0") None (Some "10.0.0.7") None None.

(** A ledger row for Ann. *)
Definition row (id : nat) (expiresAt : Z) (revoked : bool) : RefreshRecord :=
  mkRefreshRecord id (Opaque "stored") 1%nat expiresAt revoked 0 "Unknown"
    "Unknown".

(** Refresh requests that present nothing, and a string that is no token. *)
Definition emptyRequest : Request := refreshRequest (Opaque "").

Definition garbageRequest : Request := refreshRequest (Opaque "not-a-token").

(** A ledger whose only row for Ann is unrevoked and past its expiry. *)
Definition staleWorld : World :=
  mkWorld t0 [row 0 (t0 - 1) false] [ann] [] 1%nat.

(** A ledger whose only row for Ann is revoked. *)
Definition revokedWorld : World :=
  mkWorld t0 [row 0 (t0 + 1000) true] [ann] [] 1%nat.

(** The answer of the central error handler to an error without status and
    code, outside development. *)
Definition genericAnswer : Response :=
  mkResponse 500 [] []
    (JObj [("success", JBool false);
           ("message", JStr "Internal Server Error");
           ("code", JStr "SERVER_ERROR")]).

(** The routes, mounted. *)
Definition postRefresh (req : Request) (w : World) : Response * World :=
  serve env0 (refreshToken env0 req) w.

Definition postLogin (req : Request) (w : World) : Response * World :=
  serve env0 (login env0 req) w.

(** The world after Ann logged in at [t0]. *)
Definition world1 : World := snd (postLogin loginRequest world0).

(** A minute after the login, with the database failing on the fourth round
    trip of the next request: the lookup, its populate and the revoking save
    complete, the insertion of the successor fails. *)
Definition createFailsWorld : World :=
  with_faults [false; false; false; true] (at_time (t0 + 60000) world1).

(** The fresh database, failing on the third round trip of the next request:
    the user lookup and the insertion of the refresh record complete, the
    save of the last-login timestamp fails. *)
Definition saveFailsWorld : World := with_faults [false; false; true] world0.

(** The fresh database, failing on the insertion of the refresh record
    only, as [sendTokenResponse] meets it. *)
Definition insertFailsWorld : World := with_faults [true; false] world0.

(** A ledger holding, for Ann, an expired row, a revoked row and a live
    row. *)
Definition mixedWorld : World :=
  mkWorld t0
    [row 0 (t0 - 1) false; row 1 (t0 + 1000) true; row 2 (t0 + 1000) false]
    [ann] [] 3%nat.

(** A refresh token minted at [t0] for another user, with id 2. *)
Definition tokenB : token :=
  Signed (IdClaim 2%nat) (t0 / 1000) (t0 / 1000 + 604800) "refresh-secret".

(** Ann's logout request: her access cookie, and the other user's refresh
    token in the 'x-refresh-token' header. *)
Definition logoutRequest : Request :=
  mkRequest [("token", accessAt t0)] None None None (Some "Mozilla/5.0")
    (Some tokenB) (Some "10.0.0.7") None None.

(** An environment that uses one secret for both kinds of token. *)
Definition envShared : Env :=
  mkEnv (Some "production") (Some "one-secret") (Some "one-secret")
    None None None.



(** The error MongoDB raises for a second user with Ann's email. *)
Definition duplicateEmail : Error :=
  mkError "MongoServerError"
    "E11000 duplicate key error collection: spendwise.users index: email_1 dup key: { email: a@b.com }"
    None (Some (CodeNumber 11000)) None false [] "MongoServerError: E11000".


End Fixtures.

Module ClientFixtures.
Import Client.

(** A body whose [data.accessToken] is the empty string. *)
Definition emptyTokenBody : jsval :=
  VObj [("data", VObj [("accessToken", VStr "")])].

(** A client holding an access token, with no refresh in flight. *)
Definition loggedIn : State := mkState false [] (Some "old-token") None [].

Definition get (u : string) : Config := mkConfig u (Some "Bearer old-token") false.

(** Five requests in flight. *)
Definition fiveRequests : list Config :=
  [get "/expenses"; get "/expenses/stats"; get "/expenses/summary";
   get "/auth/me"; get "/expenses/42"].

(** The 200 answer of the refresh route carrying [tok]. *)
Definition refreshedWith (tok : string) : jsval :=
  VObj [("success", VBool true);
        ("message", VStr "Token refreshed successfully");
        ("data", VObj [("accessToken", VStr tok)])].

End ClientFixtures.

(* ================================================================== *)
(** * Properties of the credential codec *)
(* ================================================================== *)

Section CodecFacts.
Import Js Jwt Server Fixtures.

Lemma sign_returns (p : payload) (secret : string) (ttl now : Z) :
  secret <> ""%string ->
  sign p (Some secret) ttl now
  = Return (Signed p (now / 1000) (now / 1000 + ttl) secret).
Proof.
  intros Hs. unfold sign.
  destruct (String.eqb_spec secret ""); [contradiction | reflexivity].
Qed.

Lemma sign_with_secret (p : payload) (secret : option string) (ttl now : Z) :
  secret_set secret = true ->
  sign p secret ttl now
  = Return (Signed p (now / 1000) (now / 1000 + ttl) (or_string secret "")).
Proof.
  unfold secret_set, sign, or_string.
  destruct secret as [s |]; [| discriminate].
  destruct (s =? "")%string; [discriminate | reflexivity].
Qed.

Lemma sign_decode (p : payload) (secret : option string) (ttl now : Z)
    (tok : token) :
  sign p secret ttl now = Return tok ->
  exists iat exp, decode tok = Some (mkDecoded p iat exp).
Proof.
  unfold sign. destruct secret as [s |]; [| discriminate].
  destruct (s =? "")%string; [discriminate |].
  intros H. injection H as <-. eexists. eexists. reflexivity.
Qed.

Lemma verify_own_key (p : payload) (iat exp : Z) (secret : string) (t : Z) :
  secret <> ""%string ->
  verify (Signed p iat exp secret) (Some secret) t
  = if t / 1000 >=? exp
    then Throw (libError "TokenExpiredError" "jwt expired")
    else Return (mkDecoded p iat exp).
Proof.
  intros Hs. unfold verify, secret_set, or_string.
  destruct (String.eqb_spec secret ""); [contradiction |].
  cbn [negb]. rewrite String.eqb_refl. reflexivity.
Qed.

Lemma verify_secret_set (t : token) (secret : option string) (now : Z)
    (d : Decoded) :
  verify t secret now = Return d -> secret_set secret = true.
Proof.
  unfold verify. destruct t as [s | p iat exp key].
  - destruct (s =? "")%string; discriminate.
  - destruct (secret_set secret); [reflexivity | discriminate].
Qed.

(** C8.  A token signed for a subject with a ttl verifies to that same
    subject at every clock reading before issue time plus ttl, and from
    issue time plus ttl on it fails with the expired error, whose name
    differs from the one of a malformed token. *)
Theorem codec_round_trip :
  forall (subjectId : UserId) (secret : string) (ttl now t : Z),
    secret <> ""%string ->
    let issuedAt := now / 1000 in
    exists tok,
      sign (IdClaim subjectId) (Some secret) ttl now = Return tok
      /\ (t / 1000 < issuedAt + ttl ->
          exists d, verify tok (Some secret) t = Return d
                    /\ d_id d = Some subjectId)
      /\ (issuedAt + ttl <= t / 1000 ->
          exists e, verify tok (Some secret) t = Throw e
                    /\ name e = "TokenExpiredError"%string
                    /\ name e <> "JsonWebTokenError"%string).
Proof.
  intros subjectId secret ttl now t Hs issuedAt.
  exists (Signed (IdClaim subjectId) issuedAt (issuedAt + ttl) secret).
  split; [apply sign_returns; assumption |].
  rewrite verify_own_key by assumption.
  split; intros Ht.
  - destruct (Z.geb_spec (t / 1000) (issuedAt + ttl)); [lia |].
    eexists; split; reflexivity.
  - destruct (Z.geb_spec (t / 1000) (issuedAt + ttl)); [| lia].
    eexists; split; [reflexivity |]. split; [reflexivity | discriminate].
Qed.

(** The round trip at a concrete key: accepted in the last millisecond of
    the window, expired from the next one on. *)
Lemma codec_round_trip_witness :
  (exists d, verify (accessAt t0) (Some "access-secret") (t0 + 899999)
             = Return d
             /\ d_id d = Some 1%nat)
  /\ (exists e, verify (accessAt t0) (Some "access-secret") (t0 + 900000)
                = Throw e
                /\ name e = "TokenExpiredError"%string
                /\ name e <> "JsonWebTokenError"%string).
Proof.
  split.
  - destruct (codec_round_trip 1%nat "access-secret" 900 t0 (t0 + 899999))
      as (tok & Hs & Hok & _); [discriminate |].
    assert (Htok : tok = accessAt t0)
      by (vm_compute in Hs; injection Hs as <-; reflexivity).
    rewrite <- Htok. apply Hok. vm_compute. reflexivity.
  - destruct (codec_round_trip 1%nat "access-secret" 900 t0 (t0 + 900000))
      as (tok & Hs & _ & Hexp); [discriminate |].
    assert (Htok : tok = accessAt t0)
      by (vm_compute in Hs; injection Hs as <-; reflexivity).
    rewrite <- Htok. apply Hexp. vm_compute. discriminate.
Defined.

(** The guard on top of the codec: the access token minted for a user is
    accepted while it lasts, and answered 401 TOKEN_EXPIRED afterwards. *)
Lemma authenticate_round_trip :
  let req := mkRequest [("token"%string, accessAt t0)] None None None None
               None None None None in
  generateAccessToken env0 1%nat t0 = Return (accessAt t0)
  /\ fst (authenticate env0 req (at_time (t0 + 899999) world0))
     = Return (Attached ann 1%nat)
  /\ fst (authenticate env0 req (at_time (t0 + 900000) world0))
     = Return (Rejected (unauthorized "Session expired. Please login again."
                           (Some "TOKEN_EXPIRED"%string))).
Proof. vm_compute. repeat split. Qed.

End CodecFacts.

(* ================================================================== *)
(** * Properties of the ledger housekeeping *)
(* ================================================================== *)

Section LedgerFacts.
Import Js Jwt Server.

(** What the sweep returns and leaves behind, for every world. *)
Lemma cleanupExpiredTokens_run (w : World) :
  cleanupExpiredTokens w
  = if next_fault w
    then (Return 0, spent w)
    else (Return (Z.of_nat (List.length
                    (filter (expired_or_revoked (clock w)) (refreshTokens w)))),
          set_refreshTokens
            (filter (fun r => negb (expired_or_revoked (clock w) r))
                    (refreshTokens w)) (spent w)).
Proof.
  unfold cleanupExpiredTokens, try_catch, bind, date_now, deleteMany, bind,
    db_call, get_world, modify, ret.
  destruct (next_fault w); reflexivity.
Qed.

(** What the bulk revoke returns and leaves behind, for every world. *)
Lemma revokeAllUserTokens_run (userId : option UserId) (w : World) :
  revokeAllUserTokens userId w
  = if next_fault w
    then (Return 0, spent w)
    else (Return (Z.of_nat (List.length
                    (filter (fun r => matches_active userId r
                                      && negb (rt_isRevoked r))
                            (refreshTokens w)))),
          set_refreshTokens
            (map (fun r => if matches_active userId r then revoke r else r)
                 (refreshTokens w)) (spent w)).
Proof.
  unfold revokeAllUserTokens, try_catch, bind, updateMany_revoke, bind,
    db_call, get_world, modify, ret.
  destruct (next_fault w); reflexivity.
Qed.

(** C9.  Both housekeeping statics always return a number and never throw:
    the count of affected rows when the database call completes, and 0 when
    it fails; a failed run therefore returns exactly what a completed run
    over a ledger with no matching row returns. *)
Theorem housekeeping_statics_total :
  forall (userId : option UserId) (w : World),
    (exists n w', cleanupExpiredTokens w = (Return n, w')
       /\ n = if next_fault w then 0
              else Z.of_nat (List.length (filter (expired_or_revoked (clock w))
                                            (refreshTokens w))))
    /\ (exists n w', revokeAllUserTokens userId w = (Return n, w')
          /\ n = if next_fault w then 0
                 else Z.of_nat (List.length
                        (filter (fun r => matches_active userId r
                                          && negb (rt_isRevoked r))
                                (refreshTokens w))))
    /\ (forall w2 : World,
          next_fault w = true -> next_fault w2 = false ->
          filter (expired_or_revoked (clock w2)) (refreshTokens w2) = [] ->
          fst (cleanupExpiredTokens w) = fst (cleanupExpiredTokens w2))
    /\ (forall w2 : World,
          next_fault w = true -> next_fault w2 = false ->
          filter (fun r => matches_active userId r && negb (rt_isRevoked r))
                 (refreshTokens w2) = [] ->
          fst (revokeAllUserTokens userId w)
          = fst (revokeAllUserTokens userId w2)).
Proof.
  intros userId w. repeat split.
  - rewrite cleanupExpiredTokens_run.
    destruct (next_fault w); eexists; eexists; split; reflexivity.
  - rewrite revokeAllUserTokens_run.
    destruct (next_fault w); eexists; eexists; split; reflexivity.
  - intros w2 Hf Hok Hnone.
    rewrite !cleanupExpiredTokens_run, Hf, Hok, Hnone. reflexivity.
  - intros w2 Hf Hok Hnone.
    rewrite !revokeAllUserTokens_run, Hf, Hok, Hnone. reflexivity.
Qed.

End LedgerFacts.

(* ================================================================== *)
(** * Properties of issuance and rotation *)
(* ================================================================== *)

Section SessionFacts.
Import Js Jwt Server Fixtures.
Local Open Scope js_scope.

(** ** Rules for [always] and [total] *)

Lemma always_ret {A} (P : A -> Prop) (a : A) : P a -> always P (ret a).
Proof. intros H w. exact H. Qed.

Lemma always_bind {A B} (P : B -> Prop) (c : M A) (k : A -> M B) :
  (forall a, always P (k a)) -> always P (bind c k).
Proof.
  intros H w. unfold bind.
  destruct (c w) as [[a | e] w1]; [apply H | exact I].
Qed.

Lemma total_ret {A} (P : A -> Prop) (a : A) : P a -> total P (ret a).
Proof. intros H w. exists a, w. split; [reflexivity | exact H]. Qed.

Lemma total_try_catch {A} (P : A -> Prop) (body : M A)
    (handler : Error -> M A) :
  always P body -> (forall e, total P (handler e)) ->
  total P (try_catch body handler).
Proof.
  intros Hb Hh w. unfold try_catch. specialize (Hb w).
  destruct (body w) as [[a | e] w1]; simpl in Hb.
  - exists a, w1. split; [reflexivity | exact Hb].
  - apply Hh.
Qed.

Lemma always_top {A} (c : M A) : always (fun _ => True) c.
Proof. intros w. destruct (fst (c w)); exact I. Qed.

Lemma total_bind {A B} (P : B -> Prop) (c : M A) (k : A -> M B) :
  total (fun _ => True) c -> (forall a, total P (k a)) -> total P (bind c k).
Proof.
  intros Hc Hk w. unfold bind.
  destruct (Hc w) as (a & w1 & Hrun & _). rewrite Hrun. apply Hk.
Qed.

(** A handler that always returns is not changed by [asyncHandler]. *)
Lemma total_asyncHandler (P : Reply -> Prop) (fn : M Reply) :
  total P fn -> total P (asyncHandler fn).
Proof.
  intros H w. unfold asyncHandler, try_catch.
  destruct (H w) as (a & w1 & Hrun & Ha). rewrite Hrun.
  exists a, w1. split; [reflexivity | exact Ha].
Qed.

(** ** The answers of the routes *)

(** The refresh handler never throws: it sends the 200 answer or hands an
    argument-less [AppError] to [next]. *)
Lemma refreshToken_body_total (env : Env) (req : Request) :
  total (refresh_reply env) (refreshToken_body env req).
Proof.
  unfold refreshToken_body.
  destruct (or_token _ _) as [t |];
    [destruct (negb (truthy t)) |];
    try (apply total_ret; left; eexists; reflexivity).
  apply total_try_catch;
    [| intros e; apply total_ret; left; eexists; reflexivity].
  apply always_bind; intros now.
  apply always_bind; intros decoded.
  apply always_bind; intros storedToken.
  destruct storedToken as [st |], (d_id decoded) as [id |];
    try (apply always_ret; left; eexists; reflexivity).
  destruct (rt_expiresAt st <? now).
  - apply always_bind; intros _.
    apply always_ret; left; eexists; reflexivity.
  - repeat (apply always_bind; intros).
    apply always_ret. right. eexists. eexists. reflexivity.
Qed.

(** What the mounted refresh route answers, in every world. *)
Lemma refresh_route_answers (env : Env) (req : Request) (w : World) :
  let r := fst (serve env (refreshToken env req) w) in
  (exists site, r = errorHandler env (bare site))
  \/ exists accessToken now,
       r = mkResponse 200 [tokenCookie env accessToken now] []
             (refreshedBody accessToken).
Proof.
  unfold serve, refreshToken, asyncHandler, try_catch.
  destruct (refreshToken_body_total env req w) as (rp & w1 & Hrun & Hrp).
  rewrite Hrun. destruct Hrp as [(site & ->) | (tok & now & ->)]; cbn [fst].
  - left; exists site; reflexivity.
  - right; eauto.
Qed.

(** What the central handler makes of an argument-less [AppError]. *)
Lemma errorHandler_bare (env : Env) (site : string) :
  res_status (errorHandler env (bare site)) = 500
  /\ field "code" (res_body (errorHandler env (bare site)))
     = Some (JStr "SERVER_ERROR")
  /\ field "message" (res_body (errorHandler env (bare site)))
     = Some (JStr "Internal Server Error").
Proof. repeat split. Qed.

Lemma sendTokenResponse_always (env : Env) (user : UserDoc) (statusCode : Z)
    (rt : option token) (req : Request) :
  always (issued_response env statusCode)
    (sendTokenResponse env user statusCode rt req).
Proof.
  unfold sendTokenResponse.
  repeat (apply always_bind; intros).
  apply always_ret. unfold issued_response. eauto.
Qed.

(** A request that carries only the cookie named token, and nothing in its
    body, is turned away by the refresh route before any lookup. *)
Lemma refresh_without_cookie (env : Env) (r : Response) (w : World) :
  map c_name (res_cookies r) = ["token"%string] ->
  serve env (refreshToken env (refreshRequestAfter r)) w
  = (errorHandler env (bare "237"), w).
Proof.
  intros Hc. unfold serve, refreshToken, asyncHandler, try_catch,
    refreshToken_body, refreshRequestAfter, cookie.
  cbn [req_cookies body_refreshToken].
  destruct (res_cookies r) as [| c [| c' rest]]; try discriminate.
  injection Hc as Hc. cbn [map find fst snd]. rewrite Hc.
  reflexivity.
Qed.

(** Logout answers 200 and clears the cookie whatever the bulk revoke did or
    returned. *)
Lemma logout_always_clears (env : Env) (req : Request) :
  total (fun rp => exists body,
                     rp = Sent (mkResponse 200 [] ["token"%string] body))
    (logout env req).
Proof.
  unfold logout. apply total_asyncHandler. unfold logout_body.
  apply total_bind.
  - destruct (header_xRefreshToken req) as [v |];
      [destruct (truthy v) |]; try (apply total_ret; exact I).
    apply total_try_catch; [apply always_top |].
    intros e. apply total_ret. exact I.
  - intros _. apply total_ret. eexists. reflexivity.
Qed.

(** C4 (what the code does).  Whatever the request and the ledger, the
    refresh route answers 200 or the generic 500 / SERVER_ERROR answer: a
    missing token, a malformed one, a revoked or absent record and an
    expired record all receive the very same answer, with none of the codes
    REFRESH_TOKEN_REQUIRED, INVALID_REFRESH_TOKEN or REFRESH_TOKEN_EXPIRED. *)
Theorem refresh_failures_all_server_error :
  (forall (env : Env) (req : Request) (w : World),
     let r := fst (serve env (refreshToken env req) w) in
     res_status r = 200
     \/ (res_status r = 500
         /\ field "code" (res_body r) = Some (JStr "SERVER_ERROR")
         /\ field "message" (res_body r) = Some (JStr "Internal Server Error")))
  /\ fst (postRefresh emptyRequest world1) = genericAnswer
  /\ fst (postRefresh garbageRequest world1) = genericAnswer
  /\ fst (postRefresh (refreshRequest tokenA) world0) = genericAnswer
  /\ fst (postRefresh (refreshRequest tokenA) revokedWorld) = genericAnswer
  /\ fst (postRefresh (refreshRequest tokenA) staleWorld) = genericAnswer.
Proof.
  split; [| repeat split; vm_compute; reflexivity].
  intros env req w r.
  destruct (refresh_route_answers env req w) as [(site & H) | (tok & now & H)];
    fold r in H; rewrite H.
  - right. apply errorHandler_bare.
  - left. reflexivity.
Qed.

(** The lookup of the refresh route never looks at the presented token
    beyond the user it names: two valid tokens of one user, a used one and
    the current one alike, are answered in the same way. *)
Lemma rotation_ignores_presented_token (env : Env) (w : World)
    (tokA tokB : token) (dA dB : Decoded) :
  truthy tokA = true -> truthy tokB = true ->
  verify tokA (JWT_REFRESH_SECRET env) (clock w) = Return dA ->
  verify tokB (JWT_REFRESH_SECRET env) (clock w) = Return dB ->
  d_id dA = d_id dB ->
  refreshToken env (refreshRequest tokA) w
  = refreshToken env (refreshRequest tokB) w.
Proof.
  intros HtA HtB HvA HvB Hid.
  unfold refreshToken, asyncHandler, refreshToken_body, refreshRequest, cookie,
    or_token.
  cbn [req_cookies body_refreshToken find].
  rewrite HtA, HtB. cbn [negb].
  unfold try_catch, bind, date_now, lift.
  rewrite HvA, HvB. cbn beta iota. rewrite Hid. reflexivity.
Qed.

(** C1 (what the code does).  Ann logs in and receives the refresh token
    [tokenA]; a minute later a refresh presenting [tokenA] succeeds; another
    minute later a second refresh presenting the same [tokenA] succeeds
    again, because the lookup is by user and finds the successor record. *)
Theorem rotation_accepts_same_token_twice :
  let first := postRefresh (refreshRequest tokenA)
                 (at_time (t0 + 60000) world1) in
  let second := postRefresh (refreshRequest tokenA)
                  (at_time (t0 + 120000) (snd first)) in
  generateRefreshToken env0 1%nat t0 = Return tokenA
  /\ refreshTokens world1 = [storedRow]
  /\ res_status (fst first) = 200
  /\ res_status (fst second) = 200
  /\ field "code" (res_body (fst second)) = None
  /\ map rt_isRevoked (refreshTokens (snd second)) = [true; true; false].
Proof. vm_compute. repeat split. Qed.

(** C2 (what the code does).  Every answer of issuance and every 200 answer
    of rotation sets exactly one cookie, named token and holding the access
    token, and its body carries the access token only; the refresh token is
    in neither.  A browser that sends back what it was given therefore
    presents no refresh token, and the refresh route turns it away. *)
Theorem refresh_credential_never_delivered :
  forall (env : Env) (user : UserDoc) (statusCode : Z) (rt : option token)
         (req : Request) (w : World),
    match sendTokenResponse env user statusCode rt req w with
    | (Return r, _) =>
        map c_name (res_cookies r) = ["token"%string]
        /\ cookie "refreshToken" (refreshRequestAfter r) = None
        /\ (exists u tok,
              field "data" (res_body r)
              = Some (JObj [("user"%string, u);
                            ("accessToken"%string, JTok tok)])
              /\ map c_value (res_cookies r) = [tok])
        /\ forall w2, serve env (refreshToken env (refreshRequestAfter r)) w2
                      = (errorHandler env (bare "237"), w2)
    | (Throw _, _) => True
    end
    /\
    match refreshToken env req w with
    | (Return (Sent r), _) =>
        map c_name (res_cookies r) = ["token"%string]
        /\ cookie "refreshToken" (refreshRequestAfter r) = None
        /\ (exists tok,
              field "data" (res_body r)
              = Some (JObj [("accessToken"%string, JTok tok)])
              /\ map c_value (res_cookies r) = [tok])
        /\ forall w2, serve env (refreshToken env (refreshRequestAfter r)) w2
                      = (errorHandler env (bare "237"), w2)
    | _ => True
    end.
Proof.
  intros env user statusCode rt req w. split.
  - pose proof (sendTokenResponse_always env user statusCode rt req w) as H.
    destruct (sendTokenResponse env user statusCode rt req w) as [[r | e] w1];
      [| exact I].
    simpl in H. destruct H as (tok & now & u & ->).
    split; [reflexivity |]. split; [reflexivity |].
    split; [eexists; eexists; split; reflexivity |].
    intros w2. apply refresh_without_cookie. reflexivity.
  - unfold refreshToken, asyncHandler, try_catch.
    destruct (refreshToken_body_total env req w) as (rp & w1 & Hrun & Hrp).
    rewrite Hrun. destruct Hrp as [(site & ->) | (tok & now & ->)]; [exact I |].
    split; [reflexivity |]. split; [reflexivity |].
    split; [eexists; split; reflexivity |].
    intros w2. apply refresh_without_cookie. reflexivity.
Qed.

End SessionFacts.

(* ================================================================== *)
(** * What the ledger stores *)
(* ================================================================== *)

Section StoredTokens.
Import Js Jwt Server Fixtures.
Local Open Scope js_scope.

Section Grows.
Variable P : token * UserId -> Prop.

Lemma grows_refl (l : list RefreshRecord) : grows P l l.
Proof. exists []. rewrite app_nil_r. split; [reflexivity | constructor]. Qed.

Lemma grows_trans (l1 l2 l3 : list RefreshRecord) :
  grows P l1 l2 -> grows P l2 l3 -> grows P l1 l3.
Proof.
  intros (e1 & H1 & F1) (e2 & H2 & F2). exists (e1 ++ e2).
  rewrite H2, H1, app_assoc. split; [reflexivity |].
  apply Forall_app; split; assumption.
Qed.

Lemma grows_same (l l' : list RefreshRecord) :
  map stored l' = map stored l -> grows P l l'.
Proof.
  intros H. exists []. rewrite app_nil_r. split; [exact H | constructor].
Qed.

Lemma appends_ret {A} (a : A) : appends P (ret a).
Proof. intros w. apply grows_refl. Qed.

Lemma appends_bind {A B} (c : M A) (k : A -> M B) :
  appends P c -> (forall a, appends P (k a)) -> appends P (bind c k).
Proof.
  intros Hc Hk w. unfold bind. specialize (Hc w).
  destruct (c w) as [[a | e] w1]; cbn [snd] in *.
  - eapply grows_trans; [exact Hc | apply Hk].
  - exact Hc.
Qed.

(** A lifted library call changes nothing, and its continuation runs on
    what the call returned. *)
Lemma appends_lift_bind {A B} (o : Outcome A) (k : A -> M B) :
  (forall a, o = Return a -> appends P (k a)) -> appends P (bind (lift o) k).
Proof.
  intros Hk w. unfold bind, lift. destruct o as [a | e]; cbn [snd].
  - apply Hk. reflexivity.
  - apply grows_refl.
Qed.

Lemma appends_try_catch {A} (body : M A) (handler : Error -> M A) :
  appends P body -> (forall e, appends P (handler e)) ->
  appends P (try_catch body handler).
Proof.
  intros Hb Hh w. unfold try_catch. specialize (Hb w).
  destruct (body w) as [[a | e] w1]; cbn [snd] in *.
  - exact Hb.
  - eapply grows_trans; [exact Hb | apply Hh].
Qed.

Lemma appends_date_now : appends P date_now.
Proof. intros w. apply grows_refl. Qed.

Lemma appends_get_world : appends P get_world.
Proof. intros w. apply grows_refl. Qed.

Lemma appends_db_call : appends P db_call.
Proof. intros w. apply grows_refl. Qed.

Lemma map_stored_revoke (p : RefreshRecord -> bool) (l : list RefreshRecord) :
  map stored (map (fun r => if p r then revoke r else r) l) = map stored l.
Proof.
  induction l as [| r l IH]; [reflexivity |].
  cbn [map]. rewrite IH. destruct (p r); reflexivity.
Qed.

Lemma appends_save_revoked (doc : RefreshRecord) : appends P (save_revoked doc).
Proof.
  intros w. unfold save_revoked, bind, db_call, modify.
  destruct (next_fault w); cbn [snd]; [apply grows_refl |].
  apply grows_same. cbn [set_refreshTokens refreshTokens].
  apply map_stored_revoke.
Qed.

Lemma appends_user_save (u : UserDoc) : appends P (user_save u).
Proof.
  intros w. unfold user_save, bind, db_call, modify.
  destruct (next_fault w); cbn [snd]; apply grows_refl.
Qed.

Lemma appends_findOne (u : option UserId) : appends P (RefreshToken_findOne u).
Proof.
  unfold RefreshToken_findOne.
  apply appends_bind; [apply appends_db_call | intros _].
  apply appends_bind; [apply appends_get_world | intros w0].
  destruct (find _ _).
  - apply appends_bind; [apply appends_db_call | intros _; apply appends_ret].
  - apply appends_ret.
Qed.

Lemma appends_User_findOne (email : string) : appends P (User_findOne email).
Proof.
  unfold User_findOne.
  apply appends_bind; [apply appends_db_call | intros _].
  apply appends_bind; [apply appends_get_world | intros; apply appends_ret].
Qed.

(** An insertion adds one row, storing the field and the owner it was
    given. *)
Lemma appends_create (tok : token) (user : UserId) (expiresAt : Z)
    (ua ip : string) :
  P (tok, user) -> appends P (RefreshToken_create tok user expiresAt ua ip).
Proof.
  intros HP w.
  unfold RefreshToken_create, bind, db_call, get_world, modify, ret.
  destruct (next_fault w); cbn [snd]; [apply grows_refl |].
  exists [(tok, user)].
  cbn [set_next_oid set_refreshTokens refreshTokens spent set_faults].
  rewrite map_app. split; [reflexivity | repeat constructor; exact HP].
Qed.

End Grows.

(** The field written for a refresh token gives that token back. *)
Lemma appends_storeRefreshToken (P : token * UserId -> Prop) (env : Env)
    (rt : token) (user : UserId) (req : Request) :
  (forall h, recover_token h = Some rt -> P (h, user)) ->
  appends P (storeRefreshToken env rt user req).
Proof.
  intros HP. unfold storeRefreshToken.
  apply appends_bind; [apply appends_date_now | intros now].
  apply appends_lift_bind; intros h Hs.
  apply appends_create. apply HP.
  destruct (sign_decode _ _ _ _ _ Hs) as (iat & exp & Hd).
  unfold recover_token. rewrite Hd. reflexivity.
Qed.

Lemma appends_sendTokenResponse (env : Env) (user : UserDoc) (statusCode : Z)
    (rt : token) (req : Request) :
  appends (fun s => recover_token (fst s) = Some rt /\ snd s = u_id user)
    (sendTokenResponse env user statusCode (Some rt) req).
Proof.
  unfold sendTokenResponse.
  apply appends_bind; [apply appends_date_now | intros now].
  apply appends_lift_bind; intros accessToken _.
  apply appends_bind.
  - destruct (present (Some rt)); [| apply appends_ret].
    apply appends_try_catch; [| intros; apply appends_ret].
    apply appends_bind; [| intros; apply appends_ret].
    apply appends_storeRefreshToken.
    intros h Hh. split; [exact Hh | reflexivity].
  - intros _. apply appends_bind; [apply appends_user_save | intros _].
    apply appends_ret.
Qed.

Lemma appends_refreshToken (env : Env) (req : Request) :
  appends (minted env) (refreshToken env req).
Proof.
  unfold refreshToken, asyncHandler, refreshToken_body.
  apply appends_try_catch; [| intros; apply appends_ret].
  destruct (or_token _ _) as [t |]; [| apply appends_ret].
  destruct (negb (truthy t)); [apply appends_ret |].
  apply appends_try_catch; [| intros; apply appends_ret].
  apply appends_bind; [apply appends_date_now | intros now].
  apply appends_lift_bind; intros decoded _.
  apply appends_bind; [apply appends_findOne | intros storedToken].
  destruct storedToken as [st |], (d_id decoded) as [id |];
    try apply appends_ret.
  destruct (rt_expiresAt st <? now).
  - apply appends_bind; [apply appends_save_revoked | intros; apply appends_ret].
  - apply appends_lift_bind; intros newRefreshToken Hnew.
    apply appends_bind; [apply appends_save_revoked | intros _].
    apply appends_lift_bind; intros accessToken _.
    apply appends_bind; [| intros; apply appends_ret].
    apply appends_storeRefreshToken. intros h Hh.
    exists newRefreshToken, now. split; [exact Hh | exact Hnew].
Qed.

Lemma appends_login (env : Env) (req : Request) :
  appends (minted env) (login env req).
Proof.
  unfold login, asyncHandler, login_body.
  apply appends_try_catch; [| intros; apply appends_ret].
  destruct (orb _ _); [apply appends_ret |].
  apply appends_bind; [apply appends_User_findOne |].
  intros [user |]; [| apply appends_ret].
  destruct (negb _); [apply appends_ret |].
  apply appends_bind; [apply appends_date_now | intros now].
  apply appends_lift_bind; intros rt Hrt.
  apply appends_bind; [| intros; apply appends_ret].
  intros w.
  destruct (appends_sendTokenResponse env user 200 rt req w)
    as (extra & He & Hf).
  exists extra. split; [exact He |].
  eapply Forall_impl; [| exact Hf].
  intros [h u] [Hh Hu]. cbn [fst snd] in *.
  exists rt, now. subst u. split; assumption.
Qed.

(** C6 (what the code does).  The [token] field of every row that login or
    rotation adds to the ledger is the refresh token wrapped in a signed
    envelope: reading the envelope's payload, with no key, gives back a
    refresh token minted for the owner of the row.  After Ann's login the
    only row gives back [tokenA] itself, which the refresh route accepts. *)
Theorem stored_field_reveals_refresh_token :
  (forall (env : Env) (req : Request) (w : World),
     grows (minted env) (refreshTokens w)
       (refreshTokens (snd (login env req w)))
     /\ grows (minted env) (refreshTokens w)
          (refreshTokens (snd (refreshToken env req w))))
  /\ (forall (env : Env) (user : UserDoc) (statusCode : Z) (rt : token)
             (req : Request) (w : World),
        grows (fun s => recover_token (fst s) = Some rt /\ snd s = u_id user)
          (refreshTokens w)
          (refreshTokens
             (snd (sendTokenResponse env user statusCode (Some rt) req w))))
  /\ map (fun r => recover_token (rt_token r)) (refreshTokens world1)
     = [Some tokenA]
  /\ res_status (fst (postRefresh (refreshRequest tokenA) world1)) = 200.
Proof.
  split; [| split; [| split; vm_compute; reflexivity]].
  - intros env req w. split; [apply appends_login | apply appends_refreshToken].
  - intros env user statusCode rt req w. apply appends_sendTokenResponse.
Qed.

End StoredTokens.

(* ================================================================== *)
(** * Failures of persistence during rotation and issuance *)
(* ================================================================== *)

Section PersistenceFaults.
Import Js Jwt Server Fixtures.
Local Open Scope js_scope.

(** C5, as stated, fails.  The presented token is valid and its record is
    found and revoked; the insertion of the successor throws.  The request
    is answered 500 and the ledger is not what it was: it holds the record
    revoked and no successor. *)
Lemma rotation_not_atomic :
  let run := postRefresh (refreshRequest tokenA) createFailsWorld in
  refreshTokens createFailsWorld = [storedRow]
  /\ res_status (fst run) = 500
  /\ refreshTokens (snd run) = [revoke storedRow]
  /\ ~ (res_status (fst run) <> 200 ->
        refreshTokens (snd run) = refreshTokens createFailsWorld).
Proof.
  cbv zeta. split; [vm_compute; reflexivity |].
  split; [vm_compute; reflexivity |].
  split; [vm_compute; reflexivity |].
  intros H.
  assert (Hne : res_status (fst (postRefresh (refreshRequest tokenA)
                                   createFailsWorld)) <> 200)
    by (vm_compute; discriminate).
  specialize (H Hne). vm_compute in H. discriminate H.
Qed.

(** C5 (amended).  Rotation revokes the record it found and then inserts the
    successor, as two writes.  When both complete, the answer is 200 and the
    ledger holds the record revoked followed by one unrevoked successor for
    the same user; when the insertion throws after the revoke, the answer is
    the error answer and the ledger keeps the record revoked, with no
    successor. *)
Theorem rotation_revokes_then_creates :
  forall (env : Env) (req : Request) (w : World) (presented : token)
         (decoded : Decoded) (id : UserId) (st : RefreshRecord)
         (accessToken : token) (createFails : bool) (rest : list bool),
    or_token (cookie "refreshToken" req) (body_refreshToken req)
    = Some presented ->
    truthy presented = true ->
    verify presented (JWT_REFRESH_SECRET env) (clock w) = Return decoded ->
    d_id decoded = Some id ->
    find (matches_active (Some id)) (refreshTokens w) = Some st ->
    (rt_expiresAt st <? clock w) = false ->
    generateAccessToken env id (clock w) = Return accessToken ->
    faults w = false :: false :: false :: createFails :: rest ->
    let r := fst (serve env (refreshToken env req) w) in
    let ledger := refreshTokens (snd (serve env (refreshToken env req) w)) in
    if createFails
    then r = errorHandler env (bare "315")
         /\ ledger = revoke_row st (refreshTokens w)
    else r = mkResponse 200 [tokenCookie env accessToken (clock w)] []
               (refreshedBody accessToken)
         /\ exists doc,
              ledger = revoke_row st (refreshTokens w) ++ [doc]
              /\ rt_isRevoked doc = false
              /\ rt_user doc = id
              /\ rt_expiresAt doc = sevenDaysLater (clock w).
Proof.
  intros env req w presented decoded id st accessToken createFails rest
    Hpres Htruthy Hverify Hid Hfind Hfresh Haccess Hfaults.
  pose proof (verify_secret_set _ _ _ _ Hverify) as Hsecret.
  destruct w as [clk rts us fl oid]. cbn [clock refreshTokens faults] in *.
  subst fl.
  unfold serve, refreshToken, asyncHandler, refreshToken_body.
  rewrite Hpres, Htruthy. cbn [negb].
  unfold try_catch, bind, date_now, lift, RefreshToken_findOne, save_revoked,
    storeRefreshToken, RefreshToken_create, generateRefreshToken,
    bind, db_call, get_world, modify, ret, date_now, lift.
  cbn [clock fst snd].
  rewrite Hverify, Hid. cbn. rewrite Hfind. cbn. rewrite Hfresh.
  repeat first [ rewrite sign_with_secret by assumption
               | rewrite Haccess
               | progress cbn ].
  destruct createFails; cbn;
    repeat first [ rewrite sign_with_secret by assumption | progress cbn ].
  - split; reflexivity.
  - split; [reflexivity |]. eexists. split; [reflexivity |]. repeat split.
Qed.

(** The amended statement at the failing insertion of [createFailsWorld]. *)
Lemma rotation_revokes_then_creates_witness :
  fst (postRefresh (refreshRequest tokenA) createFailsWorld)
  = errorHandler env0 (bare "315")
  /\ refreshTokens (snd (postRefresh (refreshRequest tokenA) createFailsWorld))
     = revoke_row storedRow (refreshTokens createFailsWorld).
Proof.
  apply (rotation_revokes_then_creates env0 (refreshRequest tokenA)
           createFailsWorld tokenA decodedA 1%nat storedRow
           (accessAt (t0 + 60000)) true []);
    vm_compute; reflexivity.
Defined.

(** C7, as stated, fails.  Ann's credentials are right and the refresh
    record is written; the save of the last-login timestamp throws.  The
    login is answered 500, without an access token. *)
Lemma last_login_failure_blocks_login :
  let run := postLogin loginRequest saveFailsWorld in
  find (fun u => String.eqb (u_email u) "a@b.com") (users saveFailsWorld)
  = Some ann
  /\ comparePassword ann "secret1" = true
  /\ res_status (fst run) = 500
  /\ res_cookies (fst run) = []
  /\ field "data" (res_body (fst run)) = None
  /\ ~ res_status (fst run) = 200.
Proof.
  cbv zeta. repeat split; try (vm_compute; reflexivity).
  vm_compute. discriminate.
Qed.

(** C7 (amended).  Once the access token is minted, issuance answers with
    the requested status and the access token, in the cookie and in the
    body, whether or not the insertion of the refresh record fails, as long
    as the save of the last-login timestamp completes; when that save fails,
    the error is not caught and the route answers with an error. *)
Theorem issuance_best_effort_on_refresh_record_only :
  forall (env : Env) (user : UserDoc) (statusCode : Z) (rt : token)
         (req : Request) (w : World) (accessToken : token)
         (createFails saveFails : bool) (rest : list bool),
    generateAccessToken env (u_id user) (clock w) = Return accessToken ->
    truthy rt = true ->
    secret_set (JWT_REFRESH_SECRET env) = true ->
    faults w = createFails :: saveFails :: rest ->
    let issue := sendTokenResponse env user statusCode (Some rt) req in
    fst (issue w)
    = (if saveFails
       then Throw mongoError
       else Return (mkResponse statusCode
                      [tokenCookie env accessToken (clock w)] []
                      (issuedBody (set_lastLogin (clock w) user) accessToken)))
    /\ (saveFails = true ->
        fst (serve env (r <- issue ;; ret (Sent r)) w)
        = errorHandler env mongoError
        /\ res_status (errorHandler env mongoError) = 500).
Proof.
  intros env user statusCode rt req w accessToken createFails saveFails rest
    Haccess Htruthy Hsecret Hfaults issue. subst issue.
  destruct w as [clk rts us fl oid]. cbn [clock refreshTokens faults] in *.
  subst fl.
  unfold serve, asyncHandler, sendTokenResponse, present, try_catch, bind,
    date_now, lift, user_save, storeRefreshToken, RefreshToken_create,
    bind, db_call, get_world, modify, ret, date_now, lift.
  cbn [clock fst snd].
  rewrite Haccess, Htruthy.
  rewrite sign_with_secret by assumption.
  destruct createFails, saveFails; cbn; (split; [reflexivity |]);
    intros H; try discriminate; split; reflexivity.
Qed.

(** The amended statement when only the insertion of the refresh record
    fails: Ann is answered 200 with her access token. *)
Lemma issuance_best_effort_witness :
  fst (sendTokenResponse env0 ann 200 (Some tokenA) loginRequest
         insertFailsWorld)
  = Return (mkResponse 200 [tokenCookie env0 (accessAt t0) t0] []
              (issuedBody (set_lastLogin t0 ann) (accessAt t0))).
Proof.
  apply (proj1 (issuance_best_effort_on_refresh_record_only env0 ann 200
                  tokenA loginRequest insertFailsWorld (accessAt t0)
                  true false [] eq_refl eq_refl eq_refl eq_refl)).
Defined.

End PersistenceFaults.

(* ================================================================== *)
(** * Properties of the client coordinator *)
(* ================================================================== *)

Section ClientFacts.
Import Client ClientFixtures.

(** After the slot holds the new token, the request interceptor leaves a
    request that already carries it as it is. *)
Lemma onRequest_bearer (st : State) (token : jsval) (c : Config) :
  accessToken st = Some (toString token) ->
  onRequest st (bearer token c) = bearer token c.
Proof.
  intros H. unfold onRequest. rewrite H.
  destruct (toString token =? "")%string; reflexivity.
Qed.

(** While a refresh is in flight, a failing request is queued and nothing
    else happens. *)
Lemma onRejected_queues (c : Config) (st : State) :
  isRefreshing st = true -> unretried c ->
  onRejected (AxiosError (Some 401) "Unauthorized") c st
  = mkState true (failedQueue st ++ [c]) (accessToken st) (awaiting st)
      (effects st).
Proof.
  intros Hr Hc. unfold onRejected. cbn [response_status is401].
  rewrite Hc, Hr. reflexivity.
Qed.

Lemma fail_all_queues (reqs : list Config) (st : State) :
  isRefreshing st = true -> Forall unretried reqs ->
  fail_all reqs st
  = mkState true (failedQueue st ++ reqs) (accessToken st) (awaiting st)
      (effects st).
Proof.
  revert st. induction reqs as [| c reqs IH]; intros st Hr Hall.
  - cbn. rewrite app_nil_r. destruct st; cbn in *; subst; reflexivity.
  - inversion Hall as [| ? ? Hc Hrest]; subst.
    unfold fail_all in *. cbn [fold_left].
    rewrite onRejected_queues by assumption.
    rewrite IH by (try reflexivity; assumption).
    cbn. rewrite <- app_assoc. reflexivity.
Qed.

(** From the idle state, the first failing request starts the refresh and
    the others are queued behind it. *)
Lemma fail_all_from_idle (first : Config) (rest : list Config) (st : State) :
  isRefreshing st = false -> failedQueue st = [] ->
  Forall unretried (first :: rest) ->
  fail_all (first :: rest) st
  = mkState true rest (accessToken st) (Some (mark_retry first))
      (effects st ++ [PostRefresh]).
Proof.
  intros Hidle Hq Hall. inversion Hall as [| ? ? Hc Hrest]; subst.
  change (fail_all (first :: rest) st)
    with (fail_all rest
            (onRejected (AxiosError (Some 401) "Unauthorized") first st)).
  unfold onRejected at 1. cbn [response_status is401].
  rewrite Hc, Hidle. cbn [negb andb Z.eqb Pos.eqb].
  rewrite fail_all_queues by (try reflexivity; assumption).
  cbn. rewrite Hq. reflexivity.
Qed.

Lemma count_refresh_calls_app (l1 l2 : list Effect) :
  count_refresh_calls (l1 ++ l2)
  = (count_refresh_calls l1 + count_refresh_calls l2)%nat.
Proof.
  unfold count_refresh_calls. rewrite filter_app, length_app. reflexivity.
Qed.

Lemma no_refresh_call_in_resends (f : Config -> Config) (l : list Config) :
  count_refresh_calls (map (fun c => Resend (f c)) l) = 0%nat.
Proof. induction l; [reflexivity | exact IHl]. Qed.

Lemma no_refresh_call_in_rejections (e : Failure) (l : list Config) :
  count_refresh_calls (map (fun c => RejectWith c e) l) = 0%nat.
Proof. induction l; [reflexivity | exact IHl]. Qed.

(** C3.  Start idle.  Let the requests [first :: rest], none of them retried
    before, all meet a 401 before the refresh call settles.  Then exactly
    one refresh call is made.  If it brings a token, the slot holds it and
    every one of the requests is sent again once, carrying that token; if it
    fails, the slot is cleared, the logout event is dispatched and every one
    of the requests is rejected with that one error.  Either way the
    coordinator is idle again, with an empty queue. *)
Theorem single_flight_collapse :
  forall (first : Config) (rest : list Config) (st : State)
         (outcome : Failure + jsval),
    isRefreshing st = false -> failedQueue st = [] -> awaiting st = None ->
    Forall unretried (first :: rest) ->
    let st1 := fail_all (first :: rest) st in
    let st2 := onRefreshSettled outcome st1 in
    count_refresh_calls (effects st2) = S (count_refresh_calls (effects st))
    /\ isRefreshing st1 = true
    /\ (isRefreshing st2 = false /\ failedQueue st2 = [] /\ awaiting st2 = None)
    /\ match refreshResult outcome with
       | inr token =>
           accessToken st2 = Some (toString token)
           /\ effects st2
              = effects st ++ [PostRefresh]
                ++ map (fun c => Resend (bearer token c))
                       (mark_retry first :: rest)
       | inl e =>
           accessToken st2 = None
           /\ effects st2
              = effects st ++ [PostRefresh; DispatchLogout]
                ++ map (fun c => RejectWith c e) rest
                ++ [RejectWith (mark_retry first) e]
       end.
Proof.
  intros first rest st outcome Hidle Hq Hw Hall st1 st2.
  assert (H1 : st1 = mkState true rest (accessToken st)
                       (Some (mark_retry first)) (effects st ++ [PostRefresh]))
    by (apply fail_all_from_idle; assumption).
  assert (H2 : st2 = match refreshResult outcome with
                     | inr token =>
                         refreshSucceeded token (mark_retry first) st1
                     | inl e => refreshFailed e (mark_retry first) st1
                     end).
  { subst st2. unfold onRefreshSettled. rewrite H1. cbn [awaiting].
    destruct outcome as [e | data]; [reflexivity |].
    cbn [refreshResult]. destruct (destructure data); reflexivity. }
  assert (Hst1 : isRefreshing st1 = true) by (rewrite H1; reflexivity).
  rewrite H2, H1. clear H2 H1 Hst1 st1 st2.
  destruct (refreshResult outcome) as [e | token].
  - assert (E : effects (refreshFailed e (mark_retry first)
                  (mkState true rest (accessToken st) (Some (mark_retry first))
                     (effects st ++ [PostRefresh])))
                = effects st ++ [PostRefresh; DispatchLogout]
                  ++ map (fun c => RejectWith c e) rest
                  ++ [RejectWith (mark_retry first) e]).
    { unfold refreshFailed, processQueue. cbn [effects failedQueue].
      rewrite <- app_assoc. reflexivity. }
    split.
    { rewrite E, !count_refresh_calls_app, no_refresh_call_in_rejections.
      cbn. lia. }
    split; [reflexivity |]. split; [repeat split |].
    split; [reflexivity | exact E].
  - assert (E : effects (refreshSucceeded token (mark_retry first)
                  (mkState true rest (accessToken st) (Some (mark_retry first))
                     (effects st ++ [PostRefresh])))
                = effects st ++ [PostRefresh]
                  ++ map (fun c => Resend (bearer token c))
                         (mark_retry first :: rest)).
    { unfold refreshSucceeded, processQueue, api.
      cbn [effects failedQueue accessToken map].
      fold (bearer token (mark_retry first)).
      rewrite onRequest_bearer by reflexivity.
      rewrite (map_ext_in _ (fun c => Resend (bearer token c))).
      2:{ intros c _. f_equal. apply onRequest_bearer. reflexivity. }
      rewrite <- app_assoc. reflexivity. }
    split.
    { rewrite E, !count_refresh_calls_app.
      rewrite (no_refresh_call_in_resends (bearer token)).
      cbn. lia. }
    split; [reflexivity |]. split; [repeat split |].
    split; [reflexivity | exact E].
Qed.

(** Five requests fail together and the refresh brings the token "fresh":
    one refresh call, five requests sent again with "Bearer fresh". *)
Lemma single_flight_collapse_witness :
  let st2 := onRefreshSettled (inr (refreshedWith "fresh"))
               (fail_all fiveRequests loggedIn) in
  count_refresh_calls (effects st2) = 1%nat
  /\ isRefreshing (fail_all fiveRequests loggedIn) = true
  /\ (isRefreshing st2 = false /\ failedQueue st2 = [] /\ awaiting st2 = None)
  /\ accessToken st2 = Some "fresh"%string
  /\ effects st2
     = [PostRefresh;
        Resend (mkConfig "/expenses" (Some "Bearer fresh") true);
        Resend (mkConfig "/expenses/stats" (Some "Bearer fresh") false);
        Resend (mkConfig "/expenses/summary" (Some "Bearer fresh") false);
        Resend (mkConfig "/auth/me" (Some "Bearer fresh") false);
        Resend (mkConfig "/expenses/42" (Some "Bearer fresh") false)].
Proof.
  apply (single_flight_collapse (get "/expenses")
           [get "/expenses/stats"; get "/expenses/summary"; get "/auth/me";
            get "/expenses/42"]
           loggedIn (inr (refreshedWith "fresh"))
           eq_refl eq_refl eq_refl).
  repeat constructor.
Defined.

(** C10, as stated, fails.  The body has a [data.accessToken] member, the
    empty string; the slot keeps the token it held and is not replaced with
    that value. *)
Lemma empty_access_token_keeps_slot :
  member (member emptyTokenBody "data") "accessToken" = VStr ""
  /\ accessToken (onFulfilled emptyTokenBody loggedIn) = Some "old-token"%string
  /\ accessToken (onFulfilled emptyTokenBody loggedIn) <> Some ""%string.
Proof. repeat split. discriminate. Qed.

(** C10 (amended).  For every response on the success side of the
    interceptor: when [data.data.accessToken] is truthy the slot is replaced
    with its string form, which for a non-empty string is exactly that
    string, and nothing else changes; when it is absent or falsy the whole
    state, the slot included, is left as it was. *)
Theorem token_slot_frame :
  forall (data : jsval) (st : State),
    let token := opt_member (opt_member data "data") "accessToken" in
    (truthy token = true ->
       onFulfilled data st = set_accessToken (Some (toString token)) st)
    /\ (forall s : string,
          token = VStr s -> s <> ""%string ->
          onFulfilled data st = set_accessToken (Some s) st)
    /\ (truthy token = false -> onFulfilled data st = st)
    /\ (token = VUndefined -> onFulfilled data st = st).
Proof.
  intros data st token. unfold onFulfilled. fold token.
  repeat split.
  - intros ->. reflexivity.
  - intros s Hs Hne. rewrite Hs. cbn [truthy toString].
    destruct (String.eqb_spec s ""); [contradiction | reflexivity].
  - intros ->. reflexivity.
  - intros ->. reflexivity.
Qed.

End ClientFacts.

(* ================================================================== *)
(** * What the handlers do to the ledger *)
(* ================================================================== *)

Section LedgerLifecycle.
Import Js Jwt Server Fixtures.
Local Open Scope js_scope.

(** ** Rules for a relation every step of a handler respects *)

Section Respects.
Variable R : World -> World -> Prop.
Hypothesis R_refl : forall w, R w w.
Hypothesis R_trans : forall a b c, R a b -> R b c -> R a c.
Hypothesis R_spent : forall w, R w (spent w).
Hypothesis R_insert :
  forall w doc, rt_id doc = next_oid w -> rt_isRevoked doc = false ->
    R w (set_next_oid (S (next_oid w))
           (set_refreshTokens (refreshTokens w ++ [doc]) w)).
Hypothesis R_revoke :
  forall w (p : RefreshRecord -> bool),
    R w (set_refreshTokens
           (map (fun r => if p r then revoke r else r) (refreshTokens w)) w).
Hypothesis R_users : forall w us, R w (set_users us w).

Lemma respects_ret {A} (a : A) : respects R (ret a).
Proof. intros w. apply R_refl. Qed.

Lemma respects_bind {A B} (c : M A) (k : A -> M B) :
  respects R c -> (forall a, respects R (k a)) -> respects R (bind c k).
Proof.
  intros Hc Hk w. unfold bind. specialize (Hc w).
  destruct (c w) as [[a | e] w1]; cbn [snd] in *.
  - eapply R_trans; [exact Hc | apply Hk].
  - exact Hc.
Qed.

Lemma respects_try_catch {A} (body : M A) (handler : Error -> M A) :
  respects R body -> (forall e, respects R (handler e)) ->
  respects R (try_catch body handler).
Proof.
  intros Hb Hh w. unfold try_catch. specialize (Hb w).
  destruct (body w) as [[a | e] w1]; cbn [snd] in *.
  - exact Hb.
  - eapply R_trans; [exact Hb | apply Hh].
Qed.

Lemma respects_lift {A} (o : Outcome A) : respects R (lift o).
Proof. intros w. apply R_refl. Qed.

Lemma respects_date_now : respects R date_now.
Proof. intros w. apply R_refl. Qed.

Lemma respects_get_world : respects R get_world.
Proof. intros w. apply R_refl. Qed.

Lemma respects_db_call : respects R db_call.
Proof. intros w. apply R_spent. Qed.

Lemma respects_modify (f : World -> World) :
  (forall w, R w (f w)) -> respects R (modify f).
Proof. intros H w. apply H. Qed.

Lemma respects_create tok user expiresAt ua ip :
  respects R (RefreshToken_create tok user expiresAt ua ip).
Proof.
  unfold RefreshToken_create.
  apply respects_bind; [apply respects_db_call | intros _].
  intros w. unfold bind, get_world, modify, ret. cbn [snd].
  apply R_insert; reflexivity.
Qed.

Lemma respects_save_revoked doc : respects R (save_revoked doc).
Proof.
  unfold save_revoked.
  apply respects_bind; [apply respects_db_call | intros _].
  apply respects_modify. intros w. apply R_revoke.
Qed.

Lemma respects_updateMany_revoke p : respects R (updateMany_revoke p).
Proof.
  intros w. unfold updateMany_revoke, bind, db_call, get_world, modify, ret.
  destruct (next_fault w); cbn [snd]; [apply R_spent |].
  eapply R_trans; [apply R_spent | apply R_revoke].
Qed.

Lemma respects_user_save u : respects R (user_save u).
Proof.
  unfold user_save.
  apply respects_bind; [apply respects_db_call | intros _].
  apply respects_modify. intros w. apply R_users.
Qed.

Lemma respects_findOne u : respects R (RefreshToken_findOne u).
Proof.
  unfold RefreshToken_findOne.
  apply respects_bind; [apply respects_db_call | intros _].
  apply respects_bind; [apply respects_get_world | intros w0].
  destruct (find _ _).
  - apply respects_bind; [apply respects_db_call | intros _; apply respects_ret].
  - apply respects_ret.
Qed.

Lemma respects_User_findOne email : respects R (User_findOne email).
Proof.
  unfold User_findOne.
  apply respects_bind; [apply respects_db_call | intros _].
  apply respects_bind; [apply respects_get_world | intros; apply respects_ret].
Qed.

Lemma respects_User_findById id : respects R (User_findById id).
Proof.
  unfold User_findById.
  apply respects_bind; [apply respects_db_call | intros _].
  apply respects_bind; [apply respects_get_world | intros; apply respects_ret].
Qed.

Lemma respects_revokeAllUserTokens u : respects R (revokeAllUserTokens u).
Proof.
  unfold revokeAllUserTokens.
  apply respects_try_catch; [| intros; apply respects_ret].
  apply respects_bind; [apply respects_updateMany_revoke |].
  intros; apply respects_ret.
Qed.

Lemma respects_storeRefreshToken env rt user req :
  respects R (storeRefreshToken env rt user req).
Proof.
  unfold storeRefreshToken.
  apply respects_bind; [apply respects_date_now | intros now].
  apply respects_bind; [apply respects_lift | intros h].
  apply respects_create.
Qed.

Lemma respects_sendTokenResponse env user statusCode rt req :
  respects R (sendTokenResponse env user statusCode rt req).
Proof.
  unfold sendTokenResponse.
  apply respects_bind; [apply respects_date_now | intros now].
  apply respects_bind; [apply respects_lift | intros accessToken].
  apply respects_bind.
  - destruct (present rt); [| apply respects_ret].
    destruct rt as [t |]; [| apply respects_ret].
    apply respects_try_catch; [| intros; apply respects_ret].
    apply respects_bind; [apply respects_storeRefreshToken |].
    intros; apply respects_ret.
  - intros _. apply respects_bind; [apply respects_user_save |].
    intros; apply respects_ret.
Qed.

Lemma respects_login env req : respects R (login env req).
Proof.
  unfold login, asyncHandler, login_body.
  apply respects_try_catch; [| intros; apply respects_ret].
  destruct (orb _ _); [apply respects_ret |].
  apply respects_bind; [apply respects_User_findOne |].
  intros [user |]; [| apply respects_ret].
  destruct (negb _); [apply respects_ret |].
  apply respects_bind; [apply respects_date_now | intros now].
  apply respects_bind; [apply respects_lift | intros rt].
  apply respects_bind; [apply respects_sendTokenResponse |].
  intros; apply respects_ret.
Qed.

Lemma respects_refreshToken env req : respects R (refreshToken env req).
Proof.
  unfold refreshToken, asyncHandler, refreshToken_body.
  apply respects_try_catch; [| intros; apply respects_ret].
  destruct (or_token _ _) as [t |]; [| apply respects_ret].
  destruct (negb (truthy t)); [apply respects_ret |].
  apply respects_try_catch; [| intros; apply respects_ret].
  apply respects_bind; [apply respects_date_now | intros now].
  apply respects_bind; [apply respects_lift | intros decoded].
  apply respects_bind; [apply respects_findOne | intros storedToken].
  destruct storedToken as [st |], (d_id decoded) as [id |];
    try apply respects_ret.
  destruct (rt_expiresAt st <? now).
  - apply respects_bind; [apply respects_save_revoked |].
    intros; apply respects_ret.
  - apply respects_bind; [apply respects_lift | intros newRefreshToken].
    apply respects_bind; [apply respects_save_revoked | intros _].
    apply respects_bind; [apply respects_lift | intros accessToken].
    apply respects_bind; [apply respects_storeRefreshToken |].
    intros; apply respects_ret.
Qed.

Lemma respects_logout env req : respects R (logout env req).
Proof.
  unfold logout, asyncHandler, logout_body.
  apply respects_try_catch; [| intros; apply respects_ret].
  apply respects_bind; [| intros; apply respects_ret].
  destruct (header_xRefreshToken req) as [v |]; [| apply respects_ret].
  destruct (truthy v); [| apply respects_ret].
  apply respects_try_catch; [| intros; apply respects_ret].
  apply respects_bind; [apply respects_date_now | intros now].
  apply respects_bind; [apply respects_lift | intros _].
  apply respects_bind; [apply respects_revokeAllUserTokens |].
  intros; apply respects_ret.
Qed.

Lemma respects_getMe env req : respects R (getMe env req).
Proof.
  unfold getMe, asyncHandler, getMe_body.
  apply respects_try_catch; [| intros; apply respects_ret].
  apply respects_bind; [apply respects_User_findById |].
  intros [user |]; [apply respects_ret | apply respects_lift].
Qed.

Lemma respects_authenticate env req : respects R (authenticate env req).
Proof.
  unfold authenticate.
  apply respects_try_catch.
  - destruct (negb _); [apply respects_ret |].
    destruct (cookie "token" req) as [tok |]; [| apply respects_ret].
    apply respects_bind; [apply respects_date_now | intros now].
    apply respects_bind; [apply respects_lift | intros decoded].
    apply respects_bind; [apply respects_User_findById |].
    intros [user |]; apply respects_ret.
  - intros e. destruct (is_name _ e); [apply respects_ret |].
    destruct (is_name _ e); apply respects_ret.
Qed.

Lemma respects_optionalAuth env req : respects R (optionalAuth env req).
Proof.
  unfold optionalAuth.
  apply respects_try_catch; [| intros; apply respects_ret].
  destruct (cookie "token" req) as [tok |]; [| apply respects_ret].
  destruct (truthy tok); [| apply respects_ret].
  apply respects_bind; [apply respects_date_now | intros now].
  apply respects_bind; [apply respects_lift | intros decoded].
  apply respects_bind; [apply respects_User_findById |].
  intros [user |]; apply respects_ret.
Qed.

Lemma respects_serve env fn : respects R fn ->
  forall w, R w (snd (serve env fn w)).
Proof.
  intros H w. unfold serve.
  pose proof (respects_try_catch fn (fun e => ret (Next e)) H
                (fun e => respects_ret (Next e)) w) as Hw.
  unfold asyncHandler.
  destruct (try_catch fn (fun e => ret (Next e)) w) as [[[r | e] | e] w1];
    exact Hw.
Qed.

Lemma respects_guarded env handler req :
  (forall r, respects R (handler env r)) ->
  forall w, R w (snd (guarded env handler req w)).
Proof.
  intros H w. unfold guarded.
  pose proof (respects_authenticate env req w) as Ha.
  destruct (authenticate env req w) as [[[r | u id] | e] w1]; cbn [snd] in *;
    try exact Ha.
  eapply R_trans; [exact Ha |]. apply respects_serve. apply H.
Qed.

End Respects.

(** ** The ledger only grows, and its rows only turn revoked *)

Lemma kept_refl r : kept r r.
Proof. left; reflexivity. Qed.

Lemma kept_trans r1 r2 r3 : kept r1 r2 -> kept r2 r3 -> kept r1 r3.
Proof.
  intros [-> | ->] [-> | ->]; [left | right | right | right]; reflexivity.
Qed.

Lemma Forall2_kept_refl l : Forall2 kept l l.
Proof. induction l; constructor; [apply kept_refl | assumption]. Qed.

Lemma Forall2_kept_trans l1 l2 l3 :
  Forall2 kept l1 l2 -> Forall2 kept l2 l3 -> Forall2 kept l1 l3.
Proof.
  intros H12. revert l3. induction H12 as [| a b l1 l2 Hab _ IH]; intros l3 H23.
  - inversion H23; constructor.
  - inversion H23 as [| b' c l2' l3' Hbc Hrest]; subst.
    constructor; [eapply kept_trans; eassumption | apply IH; assumption].
Qed.

Lemma extends_refl l : extends l l.
Proof.
  exists l, []. rewrite app_nil_r. split; [reflexivity | apply Forall2_kept_refl].
Qed.

Lemma extends_trans l1 l2 l3 : extends l1 l2 -> extends l2 l3 -> extends l1 l3.
Proof.
  intros (o2 & n2 & -> & H12) (o3 & n3 & -> & H23).
  apply Forall2_app_inv_l in H23 as (o3a & o3b & Ha & Hb & ->).
  exists o3a, (o3b ++ n3). rewrite app_assoc. split; [reflexivity |].
  eapply Forall2_kept_trans; eassumption.
Qed.

Lemma kept_after_revoke (p : RefreshRecord -> bool) (l : list RefreshRecord) :
  Forall2 kept l (map (fun r => if p r then revoke r else r) l).
Proof.
  induction l as [| r l IH]; constructor; [| exact IH].
  destruct (p r); [right | left]; reflexivity.
Qed.

Lemma ledger_extends_insert w doc :
  ledger_extends w (set_next_oid (S (next_oid w))
                      (set_refreshTokens (refreshTokens w ++ [doc]) w)).
Proof.
  exists (refreshTokens w), [doc]. split; [reflexivity | apply Forall2_kept_refl].
Qed.

Lemma ledger_extends_revoke w (p : RefreshRecord -> bool) :
  ledger_extends w
    (set_refreshTokens
       (map (fun r => if p r then revoke r else r) (refreshTokens w)) w).
Proof.
  eexists _, []. rewrite app_nil_r. split; [reflexivity | apply kept_after_revoke].
Qed.

(** X1.  No handler of the session core deletes a row of the ledger,
    reorders rows or changes a row other than by turning its revoked flag
    on: after login, refresh, logout and the me route, behind the guard
    where the router puts one, the ledger holds every earlier row in its
    place, as it was or revoked, followed by whatever rows were added.  A
    kept row has its id, token, user, expiry and creation date unchanged,
    and a revoked row stays revoked. *)
Theorem handlers_only_append_or_revoke :
  forall (env : Env) (req : Request) (w : World),
    extends (refreshTokens w) (refreshTokens (snd (login env req w)))
    /\ extends (refreshTokens w) (refreshTokens (snd (refreshToken env req w)))
    /\ extends (refreshTokens w) (refreshTokens (snd (route_logout env req w)))
    /\ extends (refreshTokens w) (refreshTokens (snd (route_me env req w)))
    /\ (forall r r', kept r r' ->
          rt_id r' = rt_id r /\ rt_token r' = rt_token r
          /\ rt_user r' = rt_user r /\ rt_expiresAt r' = rt_expiresAt r
          /\ rt_createdAt r' = rt_createdAt r
          /\ (rt_isRevoked r = true -> rt_isRevoked r' = true)).
Proof.
  intros env req w.
  assert (Hrefl : forall w, ledger_extends w w) by (intros; apply extends_refl).
  assert (Htrans : forall a b c, ledger_extends a b -> ledger_extends b c ->
                                 ledger_extends a c)
    by (intros a b c; apply extends_trans).
  assert (Hspent : forall w, ledger_extends w (spent w))
    by (intros; apply extends_refl).
  assert (Hins : forall w doc, rt_id doc = next_oid w ->
                   rt_isRevoked doc = false ->
                   ledger_extends w (set_next_oid (S (next_oid w))
                     (set_refreshTokens (refreshTokens w ++ [doc]) w)))
    by (intros; apply ledger_extends_insert).
  assert (Husers : forall w us, ledger_extends w (set_users us w))
    by (intros; apply extends_refl).
  pose proof ledger_extends_revoke as Hrev.
  split; [apply (respects_login ledger_extends); assumption |].
  split; [apply (respects_refreshToken ledger_extends); assumption |].
  split.
  { unfold route_logout.
    apply (respects_guarded ledger_extends); try assumption.
    intros r. apply (respects_logout ledger_extends); assumption. }
  split.
  { unfold route_me.
    apply (respects_guarded ledger_extends); try assumption.
    intros r. apply (respects_getMe ledger_extends); assumption. }
  intros r r' [-> | ->]; repeat split; auto.
Qed.

(** ** Row ids stay distinct *)

Lemma map_rt_id_revoke (p : RefreshRecord -> bool) (l : list RefreshRecord) :
  map rt_id (map (fun r => if p r then revoke r else r) l) = map rt_id l.
Proof.
  induction l as [| r l IH]; [reflexivity |].
  cbn [map]. rewrite IH. destruct (p r); reflexivity.
Qed.

Lemma keeps_fresh_insert w doc :
  rt_id doc = next_oid w -> rt_isRevoked doc = false ->
  keeps_fresh w (set_next_oid (S (next_oid w))
                   (set_refreshTokens (refreshTokens w ++ [doc]) w)).
Proof.
  intros Hid _ [Hnd Hlt]. split; cbn [refreshTokens set_next_oid
                                        set_refreshTokens next_oid].
  - rewrite map_app. cbn [map]. apply NoDup_app; [exact Hnd | | ].
    + repeat constructor. intros [].
    + intros x Hx [Hd | []]. subst x. rewrite Hid in Hx.
      apply in_map_iff in Hx as (r & Hr & Hin).
      rewrite Forall_forall in Hlt. specialize (Hlt r Hin). lia.
  - apply Forall_app. split.
    + eapply Forall_impl; [| exact Hlt]. cbn. intros; lia.
    + constructor; [rewrite Hid; lia | constructor].
Qed.

Lemma keeps_fresh_revoke w (p : RefreshRecord -> bool) :
  keeps_fresh w
    (set_refreshTokens
       (map (fun r => if p r then revoke r else r) (refreshTokens w)) w).
Proof.
  intros [Hnd Hlt]. split; cbn [refreshTokens set_refreshTokens next_oid].
  - rewrite map_rt_id_revoke. exact Hnd.
  - apply Forall_forall. intros r' Hin.
    apply in_map_iff in Hin as (r & <- & Hin).
    rewrite Forall_forall in Hlt. specialize (Hlt r Hin).
    destruct (p r); exact Hlt.
Qed.

Lemma preserves_cleanup : preserves fresh_ids cleanupExpiredTokens.
Proof.
  intros w [Hnd Hlt]. rewrite cleanupExpiredTokens_run.
  destruct (next_fault w); cbn [snd]; split;
    cbn [refreshTokens set_refreshTokens spent set_faults next_oid];
    try assumption.
  - clear Hlt. induction (refreshTokens w) as [| r l IH]; [constructor |].
    cbn [filter]. inversion Hnd as [| ? ? Hnot Hrest]; subst.
    destruct (negb _); [| apply IH; exact Hrest].
    cbn [map]. constructor; [| apply IH; exact Hrest].
    intros Hin. apply Hnot. apply in_map_iff in Hin as (x & Hx & Hin).
    apply filter_In in Hin as [Hin _]. apply in_map_iff. eauto.
  - apply Forall_forall. intros r Hin. apply filter_In in Hin as [Hin _].
    rewrite Forall_forall in Hlt. apply Hlt, Hin.
Qed.

(** The ids of the rows stay pairwise distinct and below the id generator
    through every handler and both statics, starting from the empty
    ledger. *)
Lemma fresh_ids_invariant :
  forall (env : Env) (req : Request),
    fresh_ids (mkWorld 0 [] [] [] 0)
    /\ preserves fresh_ids (login env req)
    /\ preserves fresh_ids (refreshToken env req)
    /\ preserves fresh_ids (logout env req)
    /\ preserves fresh_ids (revokeAllUserTokens (req_userId req))
    /\ preserves fresh_ids cleanupExpiredTokens.
Proof.
  intros env req.
  assert (Hrefl : forall w, keeps_fresh w w) by (intros w H; exact H).
  assert (Htrans : forall a b c, keeps_fresh a b -> keeps_fresh b c ->
                                 keeps_fresh a c)
    by (intros a b c H1 H2 H; auto).
  assert (Hspent : forall w, keeps_fresh w (spent w)) by (intros w H; exact H).
  assert (Husers : forall w us, keeps_fresh w (set_users us w))
    by (intros w us H; exact H).
  pose proof keeps_fresh_insert as Hins.
  pose proof keeps_fresh_revoke as Hrev.
  split; [split; constructor |].
  split; [apply (respects_login keeps_fresh); assumption |].
  split; [apply (respects_refreshToken keeps_fresh); assumption |].
  split; [apply (respects_logout keeps_fresh); assumption |].
  split; [apply (respects_revokeAllUserTokens keeps_fresh); assumption |].
  apply preserves_cleanup.
Qed.

End LedgerLifecycle.

(* ================================================================== *)
(** * The housekeeping statics, row by row *)
(* ================================================================== *)

Section Housekeeping.
Import Js Jwt Server Fixtures.
Local Open Scope js_scope.

Lemma filter_filter_same {A} (p : A -> bool) (l : list A) :
  filter p (filter p l) = filter p l.
Proof.
  induction l as [| a l IH]; [reflexivity |].
  cbn [filter]. destruct (p a) eqn:Hp; [cbn [filter]; rewrite Hp, IH |]; auto.
Qed.

Lemma filter_none {A} (p q : A -> bool) (l : list A) :
  (forall a, q a = true -> p a = false) -> filter p (filter q l) = [].
Proof.
  intros H. induction l as [| a l IH]; [reflexivity |].
  cbn [filter]. destruct (q a) eqn:Hq; [cbn [filter]; rewrite (H a Hq) |]; exact IH.
Qed.

Lemma filter_length_split {A} (p : A -> bool) (l : list A) :
  (List.length (filter p l) + List.length (filter (fun a => negb (p a)) l)
   = List.length l)%nat.
Proof.
  induction l as [| a l IH]; [reflexivity |].
  cbn [filter]. destruct (p a); cbn [negb List.length]; lia.
Qed.

(** X2.  When its database call completes, the sweep leaves exactly the rows
    that are neither revoked nor past their expiry, in their order: every
    such row survives, no other does, the number it returns and the number
    of rows left add up to the number there was, and a second sweep at the
    same instant finds nothing to delete and returns 0. *)
Theorem sweep_keeps_exactly_active_rows :
  forall w : World,
    next_fault w = false ->
    let run := cleanupExpiredTokens w in
    let left := refreshTokens (snd run) in
    left = filter (fun r => negb (expired_or_revoked (clock w) r))
             (refreshTokens w)
    /\ Forall (fun r => rt_isRevoked r = false /\ clock w <= rt_expiresAt r) left
    /\ (forall r, In r (refreshTokens w) ->
                  rt_isRevoked r = false -> clock w <= rt_expiresAt r ->
                  In r left)
    /\ (exists n, fst run = Return (Z.of_nat n)
                  /\ (n + List.length left = List.length (refreshTokens w))%nat)
    /\ fst (cleanupExpiredTokens (snd run)) = Return 0
    /\ refreshTokens (snd (cleanupExpiredTokens (snd run))) = left.
Proof.
  intros w Hok run left. subst run left.
  rewrite cleanupExpiredTokens_run, Hok. cbn [fst snd].
  set (keep := fun r => negb (expired_or_revoked (clock w) r)).
  assert (Hkeep : forall r, keep r = true <->
                    rt_isRevoked r = false /\ clock w <= rt_expiresAt r).
  { intros r. unfold keep, expired_or_revoked.
    rewrite negb_true_iff, orb_false_iff, Z.ltb_ge. tauto. }
  split; [reflexivity |]. split.
  { apply Forall_forall. intros r Hr. apply filter_In in Hr.
    apply Hkeep, Hr. }
  split.
  { intros r Hin Hrev Hexp. apply filter_In. split; [exact Hin |].
    apply Hkeep. split; assumption. }
  split.
  { eexists. split; [reflexivity |]. apply filter_length_split. }
  rewrite cleanupExpiredTokens_run.
  destruct (next_fault (set_refreshTokens _ _));
    cbn [fst snd refreshTokens set_refreshTokens spent set_faults clock].
  - split; reflexivity.
  - rewrite filter_none by (intros a Ha; fold (keep a) in *;
                            unfold keep in Ha; apply negb_true_iff, Ha).
    split; [reflexivity |]. apply filter_filter_same.
Qed.

(** The sweep over a ledger with an expired, a revoked and a live row. *)
Lemma sweep_keeps_exactly_active_rows_witness :
  refreshTokens (snd (cleanupExpiredTokens mixedWorld))
  = [row 2 (t0 + 1000) false]
  /\ fst (cleanupExpiredTokens mixedWorld) = Return 2.
Proof.
  destruct (sweep_keeps_exactly_active_rows mixedWorld eq_refl)
    as (Hleft & _ & _ & _ & _).
  split; [rewrite Hleft; reflexivity | reflexivity].
Defined.

Lemma active_filter (user : UserId) (l : list RefreshRecord) :
  filter (fun r => matches_active (Some user) r && negb (rt_isRevoked r)) l
  = active_rows user l.
Proof.
  unfold active_rows. apply filter_ext. intros r. unfold matches_active.
  destruct (Nat.eqb _ _), (rt_isRevoked r); reflexivity.
Qed.

Lemma active_rows_after_revoke (user : UserId) (l : list RefreshRecord) :
  active_rows user
    (map (fun r => if matches_active (Some user) r then revoke r else r) l)
  = [].
Proof.
  unfold active_rows. induction l as [| r l IH]; [reflexivity |].
  cbn [map filter]. destruct (matches_active (Some user) r) eqn:Hm.
  - unfold matches_active at 1. cbn [revoke rt_isRevoked rt_user negb].
    rewrite andb_false_r. exact IH.
  - rewrite Hm. exact IH.
Qed.

Lemma others_after_revoke (user : UserId) (l : list RefreshRecord) :
  filter (fun r => negb (Nat.eqb (rt_user r) user))
    (map (fun r => if matches_active (Some user) r then revoke r else r) l)
  = filter (fun r => negb (Nat.eqb (rt_user r) user)) l.
Proof.
  induction l as [| r l IH]; [reflexivity |].
  cbn [map filter]. rewrite IH.
  destruct (matches_active (Some user) r) eqn:Hm; [| reflexivity].
  unfold matches_active in Hm. apply andb_true_iff in Hm as [Hu _].
  cbn [revoke rt_user]. rewrite Hu. reflexivity.
Qed.

(** X3.  When its database call completes, the bulk revoke leaves the user
    without any active row and returns how many active rows the user had;
    the rows of every other user are untouched, every row is kept in its
    place, as it was or revoked, and a second bulk revoke finds nothing to
    change and returns 0. *)
Theorem bulk_revoke_leaves_no_active_row :
  forall (user : UserId) (w : World),
    next_fault w = false ->
    let run := revokeAllUserTokens (Some user) w in
    let after := refreshTokens (snd run) in
    active_rows user after = []
    /\ fst run
       = Return (Z.of_nat (List.length (active_rows user (refreshTokens w))))
    /\ filter (fun r => negb (Nat.eqb (rt_user r) user)) after
       = filter (fun r => negb (Nat.eqb (rt_user r) user)) (refreshTokens w)
    /\ Forall2 kept (refreshTokens w) after
    /\ fst (revokeAllUserTokens (Some user) (snd run)) = Return 0.
Proof.
  intros user w Hok run after. subst run after.
  rewrite revokeAllUserTokens_run, Hok. cbn [fst snd].
  cbn [refreshTokens set_refreshTokens].
  split; [apply active_rows_after_revoke |].
  split; [rewrite active_filter; reflexivity |].
  split; [apply others_after_revoke |].
  split; [apply kept_after_revoke |].
  rewrite revokeAllUserTokens_run.
  destruct (next_fault (set_refreshTokens _ _)); [reflexivity |].
  cbn [fst refreshTokens set_refreshTokens].
  rewrite active_filter, active_rows_after_revoke. reflexivity.
Qed.

(** The bulk revoke for Ann over the same ledger. *)
Lemma bulk_revoke_leaves_no_active_row_witness :
  active_rows 1%nat (refreshTokens mixedWorld)
  = [row 0 (t0 - 1) false; row 2 (t0 + 1000) false]
  /\ active_rows 1%nat
       (refreshTokens (snd (revokeAllUserTokens (Some 1%nat) mixedWorld))) = []
  /\ fst (revokeAllUserTokens (Some 1%nat) mixedWorld) = Return 2.
Proof.
  destruct (bulk_revoke_leaves_no_active_row 1%nat mixedWorld eq_refl)
    as (Hnone & Hcount & _).
  split; [reflexivity |]. split; [exact Hnone | exact Hcount].
Defined.

End Housekeeping.

(* ================================================================== *)
(** * The central error handler *)
(* ================================================================== *)

Section ErrorAnswers.
Import Js Jwt Server Fixtures.
Local Open Scope js_scope.

(** The member of the error answer that only development adds. *)
Lemma stack_member (env : Env) (x : list (string * json)) :
  match NODE_ENV env with
  | Some "development" => x
  | _ => []
  end = if isDevelopment env then x else [].
Proof.
  unfold isDevelopment. destruct (NODE_ENV env) as [s |]; [| reflexivity].
  repeat (destruct s as [| [[] [] [] [] [] [] [] []] s]; try reflexivity).
Qed.


Lemma code_or_default_filled (c : option ErrCode) :
  code_or_default c <> JStr "" /\ code_or_default c <> JNum 0
  /\ code_or_default c <> JNull.
Proof.
  unfold code_or_default. destruct c as [[s | n] |].
  - destruct (String.eqb_spec s ""); repeat split; try discriminate.
    intros H. injection H as H. contradiction.
  - destruct (Z.eqb_spec n 0); repeat split; try discriminate.
    intros H. injection H as H. contradiction.
  - repeat split; discriminate.
Qed.

Lemma or_string_filled (a : option string) (b : string) :
  b <> "" -> or_string a b <> "".
Proof.
  intros Hb. unfold or_string. destruct a as [s |]; [| exact Hb].
  destruct (String.eqb_spec s ""); assumption.
Qed.

Lemma or_number_filled (a : option Z) (d : Z) : d <> 0 -> or_number a d <> 0.
Proof.
  intros Hd. unfold or_number. destruct a as [n |]; [| exact Hd].
  destruct (Z.eqb_spec n 0); assumption.
Qed.

(** X4.  Whatever error reaches the central handler, the answer has a status
    other than 0, a body with success false, a message that is not empty and
    a code that is not empty, in this order, and sets no cookie; the stack
    of the error is a member of the body in development and in no other
    environment. *)
Theorem error_answer_shape :
  forall (env : Env) (err : Error),
    let r := errorHandler env err in
    res_status r <> 0
    /\ res_cookies r = []
    /\ field "success" (res_body r) = Some (JBool false)
    /\ (exists m, field "message" (res_body r) = Some (JStr m) /\ m <> "")
    /\ (exists c, field "code" (res_body r) = Some c
                  /\ c <> JStr "" /\ c <> JNum 0 /\ c <> JNull)
    /\ field "stack" (res_body r)
       = (if isDevelopment env then Some (JStr (stack err)) else None)
    /\ keys (res_body r)
       = ["success"; "message"; "code"]
         ++ (if isDevelopment env then ["stack"] else []).
Proof.
  intros env err r. subst r. unfold errorHandler. cbv zeta.
  rewrite stack_member.
  match goal with
  | |- context [or_number (statusCode ?e) 500] => generalize e
  end.
  intros error.
  cbn [res_status res_cookies res_body].
  split; [apply or_number_filled; discriminate |].
  split; [reflexivity |]. split; [reflexivity |].
  split; [eexists; split; [reflexivity | apply or_string_filled; discriminate] |].
  split; [eexists; split; [reflexivity | apply code_or_default_filled] |].
  destruct (isDevelopment env); split; reflexivity.
Qed.

(** A route that does not exist is answered 404 with the code NOT_FOUND and
    a message naming the requested url, in every environment. *)
Lemma unknown_route_answered_404 :
  forall (env : Env) (originalUrl : string),
    let r := errorHandler env (notFoundHandler originalUrl) in
    res_status r = 404
    /\ field "code" (res_body r) = Some (JStr "NOT_FOUND")
    /\ field "message" (res_body r)
       = Some (JStr ("Route " ++ originalUrl ++ " not found"))
    /\ status (notFoundHandler originalUrl) = Some "fail"
    /\ isOperational (notFoundHandler originalUrl) = true.
Proof.
  intros env originalUrl r. subst r. repeat split.
Qed.

Lemma match_index_filled (s w : string) : match_index s = Some w -> w <> "".
Proof.
  induction s as [| c s IH]; [discriminate |].
  cbn [match_index]. destruct (String.prefix "index: " (String c s)).
  - destruct (take_word _) as [| c' w'] eqn:Hw; [exact IH |].
    intros H. injection H as <-. discriminate.
  - exact IH.
Qed.

(** X5.  An error with MongoDB's duplicate-key code, unless it is named as a
    cast error or as one of the two token errors, is answered 400 with the
    code DUPLICATE_KEY and a message that names a field, which is never
    empty: the word found after 'index: ' in the error message, or the word
    field when there is none. *)
Theorem duplicate_key_answer_names_a_field :
  forall (env : Env) (err : Error),
    code err = Some (CodeNumber 11000) ->
    is_name "CastError" err = false ->
    is_name "JsonWebTokenError" err = false ->
    is_name "TokenExpiredError" err = false ->
    let r := errorHandler env err in
    res_status r = 400
    /\ field "code" (res_body r) = Some (JStr "DUPLICATE_KEY")
    /\ exists f,
         f <> ""
         /\ field "message" (res_body r)
            = Some (JStr ("A record with this " ++ f ++ " already exists."))
         /\ (match_index (message err) = None -> f = "field")
         /\ (forall w, match_index (message err) = Some w -> f = w).
Proof.
  intros env err Hcode Hcast Hjwt Hexp r. subst r.
  unfold errorHandler. cbv zeta. rewrite Hcode, Hcast, Hjwt, Hexp.
  unfold handleDuplicateKeyError. cbv zeta.
  split; [reflexivity |]. split; [reflexivity |].
  destruct (match_index (message err)) as [w |] eqn:Hw.
  - exists w. split; [eapply match_index_filled; exact Hw |].
    split; [reflexivity |]. split; [discriminate |].
    intros w' H. injection H as <-. reflexivity.
  - exists "field". split; [discriminate |]. split; [reflexivity |].
    split; [reflexivity | discriminate].
Qed.

(** The answer to the error MongoDB raises for a second user with the
    same email. *)
Lemma duplicate_key_answer_names_a_field_witness :
  res_status (errorHandler env0 duplicateEmail) = 400
  /\ field "message" (res_body (errorHandler env0 duplicateEmail))
     = Some (JStr "A record with this email_1 already exists.").
Proof.
  destruct (duplicate_key_answer_names_a_field env0 duplicateEmail
              eq_refl eq_refl eq_refl eq_refl)
    as (Hstatus & _ & f & _ & Hmessage & _ & Hword).
  split; [exact Hstatus |].
  rewrite Hmessage, (Hword "email_1" eq_refl). reflexivity.
Defined.

End ErrorAnswers.

(* ================================================================== *)
(** * Rotation, read from its answer *)
(* ================================================================== *)

Section RotationFacts.
Import Js Jwt Server Fixtures.
Local Open Scope js_scope.

(** ** Reading a run backwards *)

Lemma bind_returns {A B} (c : M A) (k : A -> M B) (w w' : World) (b : B) :
  bind c k w = (Return b, w') ->
  exists a w1, c w = (Return a, w1) /\ k a w1 = (Return b, w').
Proof.
  unfold bind. destruct (c w) as [[a | e] w1]; [eauto | discriminate].
Qed.

Lemma try_catch_returns {A} (body : M A) (handler : Error -> M A)
    (w w' : World) (a : A) :
  try_catch body handler w = (Return a, w') ->
  body w = (Return a, w')
  \/ exists e w1, body w = (Throw e, w1) /\ handler e w1 = (Return a, w').
Proof.
  unfold try_catch. destruct (body w) as [[a0 | e] w1]; [left | right]; eauto.
Qed.

Lemma ret_returns {A} (a b : A) (w w' : World) :
  ret a w = (Return b, w') -> b = a /\ w' = w.
Proof. unfold ret. intros H. inversion H. split; reflexivity. Qed.

Lemma lift_returns {A} (o : Outcome A) (a : A) (w w' : World) :
  lift o w = (Return a, w') -> o = Return a /\ w' = w.
Proof. unfold lift. intros H. inversion H. split; reflexivity. Qed.

Lemma date_now_returns (now : Z) (w w' : World) :
  date_now w = (Return now, w') -> now = clock w /\ w' = w.
Proof. unfold date_now. intros H. inversion H. split; reflexivity. Qed.

Lemma db_call_returns (w w' : World) :
  db_call w = (Return tt, w') -> next_fault w = false /\ w' = spent w.
Proof.
  unfold db_call. destruct (next_fault w); intros H; inversion H.
  split; reflexivity.
Qed.

Lemma same_data_refl (w : World) : same_data w w.
Proof. repeat split. Qed.

Lemma same_data_spent (w : World) : same_data w (spent w).
Proof. repeat split. Qed.

Lemma same_data_trans (a b c : World) :
  same_data a b -> same_data b c -> same_data a c.
Proof.
  intros (H1 & H2 & H3 & H4) (K1 & K2 & K3 & K4).
  repeat split; congruence.
Qed.


Lemma User_findOne_returns (email : string) (x : option UserDoc)
    (w w' : World) :
  User_findOne email w = (Return x, w') ->
  x = find (fun u => String.eqb (u_email u) email) (users w)
  /\ next_fault w = false /\ w' = spent w.
Proof.
  unfold User_findOne, bind, db_call, get_world, ret.
  destruct (next_fault w); [discriminate |].
  intros H; inversion H; repeat split.
Qed.

Lemma User_findById_returns (id : option UserId) (x : option UserDoc)
    (w w' : World) :
  User_findById id w = (Return x, w') ->
  x = match id with
      | Some i => find (fun u => Nat.eqb (u_id u) i) (users w)
      | None => None
      end
  /\ next_fault w = false /\ w' = spent w.
Proof.
  unfold User_findById, bind, db_call, get_world, ret.
  destruct (next_fault w); [discriminate |].
  intros H; inversion H; repeat split.
Qed.


Lemma user_save_returns (user : UserDoc) (w w' : World) :
  user_save user w = (Return tt, w') ->
  clock w' = clock w
  /\ refreshTokens w' = refreshTokens w
  /\ users w'
     = map (fun u => if Nat.eqb (u_id u) (u_id user) then user else u) (users w)
  /\ next_oid w' = next_oid w.
Proof.
  unfold user_save, bind, db_call, modify.
  destruct (next_fault w); [discriminate |].
  intros H; inversion H; repeat split.
Qed.


(** ** Rotation *)

Lemma revoke_row_absent (st : RefreshRecord) (l : list RefreshRecord) :
  ~ In (rt_id st) (map rt_id l) -> revoke_row st l = l.
Proof.
  unfold revoke_row. induction l as [| r l IH]; intros Hnot; [reflexivity |].
  cbn [map] in *. rewrite IH by (intros H; apply Hnot; right; exact H).
  destruct (Nat.eqb_spec (rt_id r) (rt_id st)) as [E | _]; [| reflexivity].
  exfalso. apply Hnot. left. exact E.
Qed.

(** Revoking the first active row of a user, in a ledger with distinct ids,
    takes exactly that row out of the user's active rows. *)
Lemma active_rows_revoke_found (user : UserId) (st : RefreshRecord)
    (l : list RefreshRecord) :
  NoDup (map rt_id l) ->
  find (matches_active (Some user)) l = Some st ->
  active_rows user l = st :: active_rows user (revoke_row st l).
Proof.
  unfold active_rows. induction l as [| r l IH]; intros Hnd Hfind;
    [discriminate |].
  inversion Hnd as [| ? ? Hnot Hrest]; subst.
  cbn [find] in Hfind. cbn [filter].
  destruct (matches_active (Some user) r) eqn:Hm.
  - injection Hfind as ->. unfold revoke_row. cbn [map].
    rewrite Nat.eqb_refl. fold (revoke_row st l).
    rewrite (revoke_row_absent st l Hnot). cbn [filter].
    unfold matches_active at 2. cbn [revoke rt_isRevoked negb].
    rewrite andb_false_r. reflexivity.
  - unfold revoke_row. cbn [map]. fold (revoke_row st l).
    destruct (Nat.eqb_spec (rt_id r) (rt_id st)) as [E | _].
    + exfalso. apply Hnot. rewrite E.
      apply find_some in Hfind as [Hin _]. apply in_map. exact Hin.
    + cbn [filter]. rewrite Hm. apply IH; assumption.
Qed.





(** The run of a refresh that finds an expired row, in a healthy database. *)
Lemma refreshToken_expired (env : Env) (req : Request) (w : World)
    (presented : token) (decoded : Decoded) (id : UserId)
    (st : RefreshRecord) :
  or_token (cookie "refreshToken" req) (body_refreshToken req)
  = Some presented ->
  truthy presented = true ->
  verify presented (JWT_REFRESH_SECRET env) (clock w) = Return decoded ->
  d_id decoded = Some id ->
  find (matches_active (Some id)) (refreshTokens w) = Some st ->
  (rt_expiresAt st <? clock w) = true ->
  healthy w ->
  refreshToken env req w
  = (Return (Next (bare "259")),
     mkWorld (clock w) (revoke_row st (refreshTokens w)) (users w) []
       (next_oid w)).
Proof.
  intros Hpres Htruthy Hverify Hid Hfind Hfresh Hhealthy.
  destruct w as [clk rts us fl oid]. unfold healthy in Hhealthy.
  cbn [clock refreshTokens faults users next_oid] in *. subst fl.
  unfold refreshToken, asyncHandler, refreshToken_body.
  rewrite Hpres, Htruthy. cbn [negb].
  unfold try_catch, bind, date_now, lift, RefreshToken_findOne, save_revoked,
    bind, db_call, get_world, modify, ret, date_now, lift.
  cbn [clock fst snd].
  rewrite Hverify, Hid. cbn. rewrite Hfind. cbn. rewrite Hfresh.
  reflexivity.
Qed.

(** The answer of a route whose handler returned. *)
Lemma serve_returned (env : Env) (fn : M Reply) (w w' : World) (rp : Reply) :
  fn w = (Return rp, w') ->
  serve env fn w
  = (match rp with Sent r => r | Next e => errorHandler env e end, w').
Proof.
  intros H. unfold serve, asyncHandler, try_catch. rewrite H.
  destruct rp; reflexivity.
Qed.

(** X7.  When the row the lookup finds for the user is past its expiry, in a
    database without failures, the refresh is refused with the error answer
    and that row, and no other, is revoked; the user's remaining active rows
    are the earlier ones without it, so the next refresh of the user meets
    the next active row in line. *)
Theorem expired_row_is_revoked_and_refused :
  forall (env : Env) (req : Request) (w : World) (presented : token)
         (decoded : Decoded) (id : UserId) (st : RefreshRecord),
    or_token (cookie "refreshToken" req) (body_refreshToken req)
    = Some presented ->
    truthy presented = true ->
    verify presented (JWT_REFRESH_SECRET env) (clock w) = Return decoded ->
    d_id decoded = Some id ->
    find (matches_active (Some id)) (refreshTokens w) = Some st ->
    (rt_expiresAt st <? clock w) = true ->
    healthy w -> fresh_ids w ->
    let run := serve env (refreshToken env req) w in
    fst run = errorHandler env (bare "259")
    /\ refreshTokens (snd run) = revoke_row st (refreshTokens w)
    /\ active_rows id (refreshTokens w)
       = st :: active_rows id (refreshTokens (snd run))
    /\ find (matches_active (Some id)) (refreshTokens (snd run))
       = hd_error (tl (active_rows id (refreshTokens w))).
Proof.
  intros env req w presented decoded id st
    Hpres Htruthy Hverify Hid Hfind Hfresh Hhealthy [Hnd _] run.
  subst run.
  rewrite (serve_returned env _ w _ _
             (refreshToken_expired env req w presented decoded id st
                Hpres Htruthy Hverify Hid Hfind Hfresh Hhealthy)).
  cbn [fst snd refreshTokens].
  pose proof (active_rows_revoke_found id st _ Hnd Hfind) as Hsplit.
  split; [reflexivity |]. split; [reflexivity |]. split; [exact Hsplit |].
  rewrite Hsplit. cbn [tl]. unfold active_rows.
  generalize (revoke_row st (refreshTokens w)). intros l.
  induction l as [| r l IH]; [reflexivity |].
  cbn [find filter]. destruct (matches_active (Some id) r); [reflexivity | exact IH].
Qed.

(** Ann's refresh over a ledger whose only row for her is stale. *)
Lemma expired_row_is_revoked_and_refused_witness :
  fst (postRefresh (refreshRequest tokenA) staleWorld)
  = errorHandler env0 (bare "259")
  /\ refreshTokens (snd (postRefresh (refreshRequest tokenA) staleWorld))
     = [row 0 (t0 - 1) true].
Proof.
  destruct (expired_row_is_revoked_and_refused env0 (refreshRequest tokenA)
              staleWorld tokenA decodedA 1%nat (row 0 (t0 - 1) false))
    as (Hanswer & Hledger & _); try (vm_compute; reflexivity).
  - vm_compute. split; repeat constructor. intros [].
  - unfold postRefresh. split; [exact Hanswer | rewrite Hledger; reflexivity].
Defined.

Lemma find_none_of_no_active (user : UserId) (l : list RefreshRecord) :
  active_rows user l = [] -> find (matches_active (Some user)) l = None.
Proof.
  unfold active_rows. induction l as [| r l IH]; [reflexivity |].
  cbn [filter find]. destruct (matches_active (Some user) r);
    [discriminate | exact IH].
Qed.

(** X8.  A user without an active row cannot refresh: whatever valid refresh
    token of that user is presented, the route answers with the error answer
    and writes nothing. *)
Theorem no_active_row_no_refresh :
  forall (env : Env) (req : Request) (w : World) (presented : token)
         (decoded : Decoded) (user : UserId),
    or_token (cookie "refreshToken" req) (body_refreshToken req)
    = Some presented ->
    verify presented (JWT_REFRESH_SECRET env) (clock w) = Return decoded ->
    d_id decoded = Some user ->
    active_rows user (refreshTokens w) = [] ->
    let run := serve env (refreshToken env req) w in
    fst run = errorHandler env
                (bare (if next_fault w then "315" else "252"))
    /\ res_status (fst run) = 500
    /\ same_data w (snd run).
Proof.
  intros env req w presented decoded user Hpres Hverify Hid Hnone run.
  subst run.
  assert (Htruthy : truthy presented = true).
  { destruct presented as [s | ]; [| reflexivity].
    cbn [verify] in Hverify. destruct (s =? "")%string; discriminate. }
  apply find_none_of_no_active in Hnone.
  unfold serve, refreshToken, asyncHandler, refreshToken_body.
  rewrite Hpres, Htruthy. cbn [negb].
  unfold try_catch, bind, date_now, lift, RefreshToken_findOne, bind, db_call,
    get_world, ret.
  rewrite Hverify, Hid.
  destruct (next_fault w).
  - cbn [fst snd]. repeat split.
  - cbn [refreshTokens spent set_faults]. rewrite Hnone. cbn [fst snd].
    repeat split.
Qed.

(** Ann's refresh over a ledger whose only row for her is revoked. *)
Lemma no_active_row_no_refresh_witness :
  active_rows 1%nat (refreshTokens revokedWorld) = []
  /\ fst (postRefresh (refreshRequest tokenA) revokedWorld)
     = errorHandler env0 (bare "252").
Proof.
  split; [reflexivity |].
  apply (no_active_row_no_refresh env0 (refreshRequest tokenA) revokedWorld
           tokenA decodedA 1%nat eq_refl eq_refl eq_refl eq_refl).
Defined.

End RotationFacts.

(* ================================================================== *)
(** * Login, and the cookie it sets *)
(* ================================================================== *)

Section LoginFacts.
Import Js Jwt Server Fixtures.
Local Open Scope js_scope.

Lemma sign_truthy (p : payload) (secret : option string) (ttl now : Z)
    (tok : token) :
  sign p secret ttl now = Return tok ->
  truthy tok = true /\ secret_set secret = true
  /\ tok = Signed p (now / 1000) (now / 1000 + ttl) (or_string secret "").
Proof.
  unfold sign, secret_set, or_string. destruct secret as [s |]; [| discriminate].
  destruct (s =? "")%string; [discriminate |].
  intros H. injection H as <-. repeat split.
Qed.

(** However the write of a refresh record ends, it adds the row or nothing. *)
Lemma storeRefreshToken_outcome (env : Env) (rt : token) (user : UserId)
    (req : Request) (w : World) :
  match storeRefreshToken env rt user req w with
  | (Return doc, w') =>
      rt_user doc = user /\ rt_isRevoked doc = false
      /\ rt_expiresAt doc = sevenDaysLater (clock w)
      /\ rt_id doc = next_oid w
      /\ clock w' = clock w
      /\ refreshTokens w' = refreshTokens w ++ [doc]
      /\ users w' = users w
  | (Throw _, w') => same_data w w'
  end.
Proof.
  unfold storeRefreshToken, RefreshToken_create, bind, date_now, lift, db_call,
    get_world, modify, ret.
  destruct (sign _ _ _ _); [| repeat split].
  destruct (next_fault w); repeat split.
Qed.

Lemma sendTokenResponse_returns (env : Env) (user : UserDoc) (statusCode : Z)
    (rt : token) (req : Request) (w w' : World) (r : Response) :
  sendTokenResponse env user statusCode (Some rt) req w = (Return r, w') ->
  exists accessToken,
    generateAccessToken env (u_id user) (clock w) = Return accessToken
    /\ r = mkResponse statusCode [tokenCookie env accessToken (clock w)] []
             (issuedBody (set_lastLogin (clock w) user) accessToken)
    /\ clock w' = clock w
    /\ users w'
       = map (fun u => if Nat.eqb (u_id u) (u_id user)
                       then set_lastLogin (clock w) user else u) (users w)
    /\ (refreshTokens w' = refreshTokens w
        \/ exists doc,
             refreshTokens w' = refreshTokens w ++ [doc]
             /\ rt_user doc = u_id user
             /\ rt_isRevoked doc = false
             /\ rt_expiresAt doc = sevenDaysLater (clock w)).
Proof.
  unfold sendTokenResponse. intros H.
  apply bind_returns in H as (now & w1 & Hnow & H).
  apply date_now_returns in Hnow as [-> ->].
  apply bind_returns in H as (accessToken & w1 & Hacc & H).
  apply lift_returns in Hacc as [Hacc ->].
  apply bind_returns in H as ([] & w1 & Hstore & H).
  apply bind_returns in H as ([] & w2 & Hsave & H).
  apply user_save_returns in Hsave as (Hc2 & Hr2 & Hu2 & _).
  apply ret_returns in H as [-> ->].
  assert (Hw1 : clock w1 = clock w /\ users w1 = users w
                /\ (refreshTokens w1 = refreshTokens w
                    \/ exists doc,
                         refreshTokens w1 = refreshTokens w ++ [doc]
                         /\ rt_user doc = u_id user
                         /\ rt_isRevoked doc = false
                         /\ rt_expiresAt doc = sevenDaysLater (clock w))).
  { unfold present in Hstore. destruct (truthy rt).
    - unfold try_catch, bind in Hstore.
      pose proof (storeRefreshToken_outcome env rt (u_id user) req w) as Ho.
      destruct (storeRefreshToken env rt (u_id user) req w) as [[doc | e] w0].
      + apply ret_returns in Hstore as [_ ->].
        destruct Ho as (? & ? & ? & ? & ? & ? & ?).
        split; [assumption |]. split; [assumption |]. right. exists doc.
        repeat split; assumption.
      + apply ret_returns in Hstore as [_ ->].
        destruct Ho as (? & ? & ? & ?).
        split; [assumption |]. split; [assumption |]. left. assumption.
    - apply ret_returns in Hstore as [_ ->]. repeat split. left. reflexivity. }
  destruct Hw1 as (Hc1 & Hu1 & Hr1).
  exists accessToken. split; [exact Hacc |]. split; [reflexivity |].
  split; [congruence |]. split; [rewrite Hu2, Hu1; reflexivity |].
  rewrite Hr2. exact Hr1.
Qed.

(** What a run of the login handler that sends an answer has done. *)
Lemma login_sent (env : Env) (req : Request) (w w' : World) (r : Response) :
    login env req w = (Return (Sent r), w') ->
    exists email password user accessToken,
      body_email req = Some email
      /\ body_password req = Some password
      /\ find (fun u => String.eqb (u_email u) email) (users w) = Some user
      /\ comparePassword user password = true
      /\ generateAccessToken env (u_id user) (clock w) = Return accessToken
      /\ r = mkResponse 200 [tokenCookie env accessToken (clock w)] []
               (issuedBody (set_lastLogin (clock w) user) accessToken)
      /\ clock w' = clock w
      /\ users w'
         = map (fun u => if Nat.eqb (u_id u) (u_id user)
                         then set_lastLogin (clock w) user else u) (users w)
      /\ (refreshTokens w' = refreshTokens w
          \/ exists doc,
               refreshTokens w' = refreshTokens w ++ [doc]
               /\ rt_user doc = u_id user
               /\ rt_isRevoked doc = false
               /\ rt_expiresAt doc = sevenDaysLater (clock w)).
Proof.
  intros H.
  unfold login, asyncHandler in H.
  apply try_catch_returns in H as [H | (e & w1 & _ & H)];
    [| apply ret_returns in H as [H _]; discriminate H].
  unfold login_body in H.
  destruct (body_email req) as [email |] eqn:Hemail;
    [| apply ret_returns in H as [H _]; discriminate H].
  destruct (body_password req) as [password |] eqn:Hpassword;
    [| cbn [nonempty negb] in H; rewrite orb_true_r in H;
       apply ret_returns in H as [H _]; discriminate H].
  destruct (negb (nonempty (Some email)) || negb (nonempty (Some password)))
    eqn:Hgiven; [apply ret_returns in H as [H _]; discriminate H |].
  apply orb_false_iff in Hgiven as [He Hp].
  apply negb_false_iff in He, Hp. cbn [nonempty] in He, Hp.
  apply negb_true_iff in He, Hp.
  unfold or_string in H. rewrite He, Hp in H.
  apply bind_returns in H as (found & w1 & Hfound & H).
  apply User_findOne_returns in Hfound as (-> & Hok & ->).
  destruct (find _ (users w)) as [user |] eqn:Hfind;
    [| apply ret_returns in H as [H _]; discriminate H].
  destruct (comparePassword user password) eqn:Hmatch; cbn [negb] in H;
    [| apply ret_returns in H as [H _]; discriminate H].
  apply bind_returns in H as (now & w1 & Hnow & H).
  apply date_now_returns in Hnow as [-> ->].
  apply bind_returns in H as (rt & w1 & Hrt & H).
  apply lift_returns in Hrt as [Hrt ->].
  apply bind_returns in H as (r0 & w1 & Hsend & H).
  apply ret_returns in H as [H ->]. injection H as ->.
  apply sendTokenResponse_returns in Hsend
    as (accessToken & Hacc & -> & Hclock & Husers & Hledger).
  exists email, password, user, accessToken.
  repeat (split; [first [reflexivity | assumption] |]).
  exact Hledger.
Qed.

Lemma verify_signed_own (p : payload) (iat exp : Z) (secret : option string)
    (t : Z) :
  secret_set secret = true ->
  verify (Signed p iat exp (or_string secret "")) secret t
  = if t / 1000 >=? exp
    then Throw (libError "TokenExpiredError" "jwt expired")
    else Return (mkDecoded p iat exp).
Proof.
  intros Hs. unfold verify. rewrite Hs. cbn [negb].
  rewrite String.eqb_refl. reflexivity.
Qed.

Lemma find_by_id_after_save (user v : UserDoc) (l : list UserDoc) :
  In user l -> u_id v = u_id user ->
  find (fun u => Nat.eqb (u_id u) (u_id user))
    (map (fun u => if Nat.eqb (u_id u) (u_id user) then v else u) l)
  = Some v.
Proof.
  intros Hin Hv. induction l as [| a l IH]; [contradiction |].
  cbn [map find]. destruct (Nat.eqb (u_id a) (u_id user)) eqn:Ha.
  - rewrite Hv, Nat.eqb_refl. reflexivity.
  - rewrite Ha. apply IH. destruct Hin as [-> | Hin]; [| exact Hin].
    rewrite Nat.eqb_refl in Ha. discriminate.
Qed.





(** X11.  The cookie a login set opens the guard for as long as the access
    token lasts: presented in a world whose user table is the one the login
    left, it makes the guard attach the user as saved by that login; once
    the token's lifetime is over the guard answers 401 TOKEN_EXPIRED without
    looking the user up. *)
Theorem login_cookie_opens_guard :
  forall (env : Env) (req : Request) (w w' : World) (r : Response)
         (req2 : Request) (w2 : World),
    login env req w = (Return (Sent r), w') ->
    req_cookies req2 = cookies_of r ->
    users w2 = users w' ->
    next_fault w2 = false ->
    exists user,
      body_email req = Some (u_email user)
      /\ u_lastLogin user = Some (clock w)
      /\ authenticate env req2 w2
         = if clock w2 / 1000 >=? clock w / 1000 + accessTtl env
           then (Return (Rejected (unauthorized
                                     "Session expired. Please login again."
                                     (Some "TOKEN_EXPIRED"))), w2)
           else (Return (Attached user (u_id user)), spent w2).
Proof.
  intros env req w w' r req2 w2 H Hjar Husers2 Hok.
  apply login_sent in H
    as (email & password & user & accessToken & He & Hp & Hfind & Hmatch
        & Hacc & -> & Hclock & Husers & Hledger).
  exists (set_lastLogin (clock w) user).
  apply find_some in Hfind as [Hin Hemail]. apply String.eqb_eq in Hemail.
  split; [rewrite He, <- Hemail; reflexivity |]. split; [reflexivity |].
  apply sign_truthy in Hacc as (Htruthy & Hsecret & Htok).
  unfold authenticate, cookie. rewrite Hjar.
  cbn [cookies_of res_cookies map tokenCookie c_name c_value find fst snd
       String.eqb Ascii.eqb Bool.eqb present].
  rewrite Htruthy. cbn [negb].
  unfold try_catch, bind, date_now, lift.
  rewrite Htok, verify_signed_own by exact Hsecret.
  fold (accessTtl env).
  destruct (clock w2 / 1000 >=? clock w / 1000 + accessTtl env);
    [reflexivity |].
  unfold User_findById, bind, db_call, get_world, ret. rewrite Hok.
  cbn [d_id d_payload users spent set_faults].
  rewrite Husers2, Husers.
  rewrite (find_by_id_after_save user (set_lastLogin (clock w) user) _ Hin eq_refl).
  reflexivity.
Qed.

(** The cookie of Ann's login, presented in the last millisecond of the
    token's lifetime. *)
Lemma login_cookie_opens_guard_witness :
  let req2 := refreshRequestAfter (fst (postLogin loginRequest world0)) in
  exists user,
    u_lastLogin user = Some t0
    /\ authenticate env0 req2 (at_time (t0 + 899999) world1)
       = (Return (Attached user (u_id user)),
          spent (at_time (t0 + 899999) world1)).
Proof.
  cbv zeta.
  assert (Hrun : login env0 loginRequest world0
                 = (Return (Sent (fst (postLogin loginRequest world0))), world1))
    by (vm_compute; reflexivity).
  destruct (login_cookie_opens_guard env0 loginRequest world0 world1
              (fst (postLogin loginRequest world0))
              (refreshRequestAfter (fst (postLogin loginRequest world0)))
              (at_time (t0 + 899999) world1) Hrun eq_refl eq_refl eq_refl)
    as (user & _ & Hlast & Hguard).
  exists user. split; [exact Hlast | exact Hguard].
Defined.






End LoginFacts.

(* ================================================================== *)
(** * The guard and the routes behind it *)
(* ================================================================== *)

Section GuardFacts.
Import Js Jwt Server Fixtures.
Local Open Scope js_scope.

(** The two ways the guard ends: it answers 401 itself, having written
    nothing, or the cookie verified, the lookup completed, and the user the
    token names is attached. *)
Lemma authenticate_cases (env : Env) (req : Request) (w : World) :
  (exists r w1,
     authenticate env req w = (Return (Rejected r), w1)
     /\ res_status r = 401 /\ res_cookies r = []
     /\ field "data" (res_body r) = None
     /\ same_data w w1)
  \/ (exists tok decoded i user,
        cookie "token" req = Some tok
        /\ truthy tok = true
        /\ verify tok (JWT_SECRET env) (clock w) = Return decoded
        /\ d_id decoded = Some i
        /\ next_fault w = false
        /\ find (fun u => Nat.eqb (u_id u) i) (users w) = Some user
        /\ authenticate env req w
           = (Return (Attached user (u_id user)), spent w)).
Proof.
  unfold authenticate, present.
  destruct (cookie "token" req) as [tok |] eqn:Hcookie; cbn [negb];
    [| left; eexists; eexists; split; [reflexivity | repeat split]].
  destruct (truthy tok) eqn:Htruthy; cbn [negb];
    [| left; eexists; eexists; split; [reflexivity | repeat split]].
  unfold try_catch, bind, date_now, lift, User_findById, bind, db_call,
    get_world, ret.
  destruct (verify tok (JWT_SECRET env) (clock w)) as [decoded | e] eqn:Hverify.
  - destruct (next_fault w) eqn:Hok.
    + left. cbn [is_name mongoError libError name String.eqb Ascii.eqb Bool.eqb].
      eexists; eexists; split; [reflexivity | repeat split].
    + cbn [users spent set_faults].
      destruct (d_id decoded) as [i |] eqn:Hid;
        [| left; eexists; eexists; split; [reflexivity | repeat split]].
      destruct (find _ (users w)) as [user |] eqn:Hfind;
        [| left; eexists; eexists; split; [reflexivity | repeat split]].
      right. exists tok, decoded, i, user. repeat split; assumption.
  - left. destruct (is_name "TokenExpiredError" e);
      [| destruct (is_name "JsonWebTokenError" e)];
      eexists; eexists; (split; [reflexivity | repeat split]).
Qed.

(** X14.  [optionalAuth] attaches a user exactly when [authenticate] would,
    and the same one; it spends the same database calls, and neither of them
    ever throws.  So [requireActiveUser] behind [optionalAuth] lets pass
    exactly the requests that [authenticate] lets pass. *)
Theorem optionalAuth_attaches_what_authenticate_attaches :
  forall (env : Env) (req : Request) (w : World),
    snd (optionalAuth env req w) = snd (authenticate env req w)
    /\ (exists attached, fst (optionalAuth env req w) = Return attached)
    /\ (exists answer, fst (authenticate env req w) = Return answer)
    /\ (forall user id,
          fst (optionalAuth env req w) = Return (Some (user, id))
          <-> fst (authenticate env req w) = Return (Attached user id))
    /\ (requireActiveUser
          (match fst (optionalAuth env req w) with
           | Return (Some (user, _)) => Some user
           | _ => None
           end) = None
        <-> exists user id,
              fst (authenticate env req w) = Return (Attached user id)).
Proof.
  intros env req w.
  unfold optionalAuth, authenticate, present.
  destruct (cookie "token" req) as [tok |]; cbn [negb].
  2:{ unfold try_catch, ret. cbn [fst snd].
      repeat split; try (eexists; reflexivity); try discriminate.
      intros (user & id & H). discriminate H. }
  destruct (truthy tok); cbn [negb].
  2:{ unfold try_catch, ret. cbn [fst snd].
      repeat split; try (eexists; reflexivity); try discriminate.
      intros (user & id & H). discriminate H. }
  unfold try_catch, bind, date_now, lift, User_findById, bind, db_call,
    get_world, ret.
  destruct (verify tok (JWT_SECRET env) (clock w)) as [decoded | e].
  - destruct (next_fault w).
    + cbn [is_name mongoError libError name String.eqb Ascii.eqb Bool.eqb].
      cbn [fst snd].
      repeat split; try (eexists; reflexivity); try discriminate.
      intros (user & id & H). discriminate H.
    + destruct (d_id decoded) as [i |].
      2:{ cbn [fst snd].
          repeat split; try (eexists; reflexivity); try discriminate.
          intros (user & id & H). discriminate H. }
      destruct (find _ _) as [user |].
      2:{ cbn [fst snd].
          repeat split; try (eexists; reflexivity); try discriminate.
          intros (user & id & H). discriminate H. }
      cbn [fst snd].
      repeat split; try (eexists; reflexivity);
        try (intros H; injection H as <- <-; reflexivity).
      eexists; eexists; reflexivity.
  - destruct (is_name "TokenExpiredError" e);
      [| destruct (is_name "JsonWebTokenError" e)];
      cbn [fst snd];
      repeat split; try (eexists; reflexivity); try discriminate;
      intros (user & id & H); discriminate H.
Qed.

Lemma verify_throws (tok : token) (secret : option string) (now : Z)
    (e : Error) :
  verify tok secret now = Throw e ->
  (exists msg, e = libError "JsonWebTokenError" msg)
  \/ e = libError "TokenExpiredError" "jwt expired".
Proof.
  unfold verify. destruct tok as [s | p iat exp key].
  - destruct (s =? "")%string; intros H; injection H as <-; left; eauto.
  - destruct (negb (secret_set secret)); [intros H; injection H as <-; left; eauto |].
    destruct (negb (key =? or_string secret "")%string);
      [intros H; injection H as <-; left; eauto |].
    destruct (now / 1000 >=? exp); [| discriminate].
    intros H; injection H as <-. right. reflexivity.
Qed.

(** X15.  Outside development, the guard answers a cookie that fails
    verification with exactly the answer the central error handler gives to
    the error [jwt.verify] threw: 401 with INVALID_TOKEN or TOKEN_EXPIRED;
    and it has not touched the database. *)
Theorem guard_answers_like_central_handler :
  forall (env : Env) (req : Request) (w : World) (tok : token) (e : Error),
    cookie "token" req = Some tok ->
    truthy tok = true ->
    verify tok (JWT_SECRET env) (clock w) = Throw e ->
    isDevelopment env = false ->
    authenticate env req w = (Return (Rejected (errorHandler env e)), w)
    /\ res_status (errorHandler env e) = 401
    /\ (field "code" (res_body (errorHandler env e))
        = Some (JStr "INVALID_TOKEN")
        \/ field "code" (res_body (errorHandler env e))
           = Some (JStr "TOKEN_EXPIRED")).
Proof.
  intros env req w tok e Hcookie Htruthy Hverify Hdev.
  unfold authenticate, present. rewrite Hcookie, Htruthy. cbn [negb].
  unfold try_catch, bind, date_now, lift. rewrite Hverify.
  unfold errorHandler. rewrite stack_member, Hdev.
  apply verify_throws in Hverify as [(msg & ->) | ->].
  - split; [reflexivity |]. split; [reflexivity |]. left. reflexivity.
  - split; [reflexivity |]. split; [reflexivity |]. right. reflexivity.
Qed.

(** Ann's access token, presented when its lifetime is over. *)
Lemma guard_answers_like_central_handler_witness :
  let req := mkRequest [("token", accessAt t0)] None None None None None None
               None None in
  authenticate env0 req (at_time (t0 + 900000) world0)
  = (Return (Rejected (errorHandler env0
                         (libError "TokenExpiredError" "jwt expired"))),
     at_time (t0 + 900000) world0).
Proof.
  cbv zeta.
  apply (guard_answers_like_central_handler env0
           (mkRequest [("token", accessAt t0)] None None None None None None
              None None)
           (at_time (t0 + 900000) world0) (accessAt t0)
           (libError "TokenExpiredError" "jwt expired")
           eq_refl eq_refl eq_refl eq_refl).
Defined.

(** X16.  The answers of [GET /me] behind the guard: the guard's 401; or 200
    with the public profile of the stored user that the cookie names; or,
    when the handler's own lookup fails, the error answer for that failure.
    The handler never meets a missing user, and nothing is written. *)
Theorem me_route_answers :
  forall (env : Env) (req : Request) (w : World),
    let run := route_me env req w in
    same_data w (snd run)
    /\ ((res_status (fst run) = 401 /\ field "data" (res_body (fst run)) = None)
        \/ fst run = errorHandler env mongoError
        \/ exists tok decoded user,
             cookie "token" req = Some tok
             /\ verify tok (JWT_SECRET env) (clock w) = Return decoded
             /\ d_id decoded = Some (u_id user)
             /\ In user (users w)
             /\ fst run = mkResponse 200 [] [] (meBody user)
             /\ keys (getPublicProfile user)
                = ["id"; "email"; "name"; "createdAt"; "lastLogin"]).
Proof.
  intros env req w run. subst run. unfold route_me, guarded.
  destruct (authenticate_cases env req w)
    as [(r & w1 & -> & Hstatus & _ & Hdata & Hsame)
       | (tok & decoded & i & user & Hcookie & _ & Hverify & Hid & Hok
          & Hfind & ->)].
  - cbn [fst snd]. split; [exact Hsame |]. left. split; assumption.
  - pose proof (find_some _ _ Hfind) as [Hin Hi]. apply Nat.eqb_eq in Hi.
    unfold serve, getMe, asyncHandler, getMe_body, try_catch, bind,
      User_findById, bind, db_call, get_world, ret, lift.
    cbn [req_userId set_userId].
    destruct (next_fault (spent w)).
    + cbn [fst snd]. split; [repeat split |]. right. left. reflexivity.
    + cbn [users spent set_faults]. rewrite Hi, Hfind. cbn [fst snd].
      split; [repeat split |]. right. right.
      exists tok, decoded, user. subst i.
      repeat (split; [first [reflexivity | assumption] |]). reflexivity.
Qed.

(** The run of the logout handler, in every world. *)
Lemma logout_run (env : Env) (req : Request) (w : World) :
  logout env req w
  = (Return (Sent (mkResponse 200 [] ["token"]
                     (JObj [("success", JBool true);
                            ("message", JStr "Logged out successfully")]))),
     match header_xRefreshToken req with
     | Some v =>
         if truthy v
         then match verify v (JWT_REFRESH_SECRET env) (clock w) with
              | Return _ => snd (revokeAllUserTokens (req_userId req) w)
              | Throw _ => w
              end
         else w
     | None => w
     end).
Proof.
  unfold logout, asyncHandler, logout_body.
  destruct (header_xRefreshToken req) as [v |]; [| reflexivity].
  destruct (truthy v); [| reflexivity].
  unfold try_catch, bind, date_now, lift, ret.
  destruct (verify v (JWT_REFRESH_SECRET env) (clock w)); [| reflexivity].
  rewrite revokeAllUserTokens_run. destruct (next_fault w); reflexivity.
Qed.

Lemma active_rows_of_others (user other : UserId) (l : list RefreshRecord) :
  other <> user ->
  active_rows other
    (map (fun r => if matches_active (Some user) r then revoke r else r) l)
  = active_rows other l.
Proof.
  intros Hne. unfold active_rows.
  induction l as [| r l IH]; [reflexivity |].
  cbn [map filter]. rewrite IH.
  destruct (matches_active (Some user) r) eqn:Hm; [| reflexivity].
  unfold matches_active in *. cbn [revoke rt_user rt_isRevoked].
  apply andb_true_iff in Hm as [Hu _]. apply Nat.eqb_eq in Hu.
  destruct (Nat.eqb_spec (rt_user r) other) as [E | _]; [congruence |].
  reflexivity.
Qed.

(** X17.  Behind the guard, logout revokes by the user of the cookie, not by
    the subject of the header: once the 'x-refresh-token' header verifies,
    for whomever it was issued, and the update completes, the attached user
    has no active row left and every other user's rows are as they were;
    when the header is absent, empty or fails to verify the ledger is
    untouched. The answer is 200 and clears the cookie in all these cases. *)
Theorem logout_revokes_rows_of_cookie_user :
  forall (env : Env) (req : Request) (w : World) (user : UserDoc),
    authenticate env req w = (Return (Attached user (u_id user)), spent w) ->
    let run := route_logout env req w in
    let after := refreshTokens (snd run) in
    fst run = mkResponse 200 [] ["token"]
                (JObj [("success", JBool true);
                       ("message", JStr "Logged out successfully")])
    /\ users (snd run) = users w
    /\ Forall2 kept (refreshTokens w) after
    /\ (forall other, other <> u_id user ->
          active_rows other after = active_rows other (refreshTokens w))
    /\ (forall (presented : token) (decoded : Decoded),
          header_xRefreshToken req = Some presented ->
          verify presented (JWT_REFRESH_SECRET env) (clock w) = Return decoded ->
          next_fault (spent w) = false ->
          active_rows (u_id user) after = [])
    /\ (present (header_xRefreshToken req) = false -> after = refreshTokens w)
    /\ (forall (presented : token) (e : Error),
          header_xRefreshToken req = Some presented ->
          verify presented (JWT_REFRESH_SECRET env) (clock w) = Throw e ->
          after = refreshTokens w).
Proof.
  intros env req w user Hguard run after. subst after run.
  unfold route_logout, guarded. rewrite Hguard.
  rewrite (serve_returned env _ _ _ _ (logout_run env _ (spent w))).
  cbn [fst snd header_xRefreshToken set_userId req_userId].
  split; [reflexivity |].
  change (clock (spent w)) with (clock w).
  destruct (header_xRefreshToken req) as [v |] eqn:Hheader.
  2:{ repeat split; try apply Forall2_kept_refl; discriminate. }
  cbn [present].
  destruct (truthy v) eqn:Htruthy.
  2:{ repeat split; try apply Forall2_kept_refl.
      intros presented decoded H. injection H as <-.
      destruct v as [s | p iat exp key]; [| discriminate].
      cbn [Jwt.truthy] in Htruthy. apply negb_false_iff in Htruthy.
      cbn [verify]. rewrite Htruthy. discriminate. }
  destruct (verify v (JWT_REFRESH_SECRET env) (clock w)) as [decoded | e]
    eqn:Hverify.
  2:{ repeat split; try apply Forall2_kept_refl; try discriminate.
      intros presented decoded H. injection H as <-. rewrite Hverify.
      discriminate. }
  rewrite revokeAllUserTokens_run.
  destruct (next_fault (spent w)) eqn:Hok;
    cbn [snd refreshTokens users spent set_faults set_refreshTokens].
  - repeat split; try apply Forall2_kept_refl; try discriminate.
  - repeat split; try discriminate.
    + apply kept_after_revoke.
    + intros other Hne. apply active_rows_of_others. exact Hne.
    + intros presented d _ _ _. apply active_rows_after_revoke.
    + intros presented e H. injection H as <-. rewrite Hverify. discriminate.
Qed.

(** Ann logs out presenting a refresh token issued to the user with id 2:
    it is Ann's row that is revoked. *)
Lemma logout_revokes_rows_of_cookie_user_witness :
  let w := at_time (t0 + 60000) world1 in
  d_id (mkDecoded (IdClaim 2%nat) (t0 / 1000) (t0 / 1000 + 604800))
  = Some 2%nat
  /\ active_rows 1%nat (refreshTokens w) = [storedRow]
  /\ active_rows 1%nat (refreshTokens (snd (route_logout env0 logoutRequest w)))
     = [].
Proof.
  cbv zeta. split; [reflexivity |]. split; [reflexivity |].
  assert (Hguard : authenticate env0 logoutRequest (at_time (t0 + 60000) world1)
                   = (Return (Attached (set_lastLogin t0 ann)
                                (u_id (set_lastLogin t0 ann))),
                      spent (at_time (t0 + 60000) world1)))
    by (vm_compute; reflexivity).
  destruct (logout_revokes_rows_of_cookie_user env0 logoutRequest
              (at_time (t0 + 60000) world1) (set_lastLogin t0 ann) Hguard)
    as (_ & _ & _ & _ & Hrevoked & _).
  apply (Hrevoked tokenB
           (mkDecoded (IdClaim 2%nat) (t0 / 1000) (t0 / 1000 + 604800)));
    vm_compute; reflexivity.
Defined.

Lemma verify_foreign_key (p : payload) (iat exp t : Z) (key : string)
    (secret : option string) :
  String.eqb key (or_string secret "") = false ->
  exists msg,
    verify (Signed p iat exp key) secret t
    = Throw (libError "JsonWebTokenError" msg).
Proof.
  intros Hk. unfold verify. destruct (negb (secret_set secret));
    [eexists; reflexivity |].
  rewrite Hk. eexists; reflexivity.
Qed.

(** X18.  Access and refresh tokens carry the same claim and no mark of
    their kind: only the signing secret tells them apart.  With two
    different secrets each route refuses the other kind without touching the
    database; with one secret for both, each kind verifies as the other for
    as long as it lasts. *)
Theorem token_kinds_differ_by_secret_only :
  forall (env : Env) (id : UserId) (now t : Z) (access refresh : token),
    generateAccessToken env id now = Return access ->
    generateRefreshToken env id now = Return refresh ->
    (decode access = Some (mkDecoded (IdClaim id) (now / 1000)
                             (now / 1000 + accessTtl env))
     /\ decode refresh = Some (mkDecoded (IdClaim id) (now / 1000)
                                 (now / 1000 + refreshTtl env)))
    /\ if sameSecret env
       then (t / 1000 < now / 1000 + accessTtl env ->
             exists d, verify access (JWT_REFRESH_SECRET env) t = Return d
                       /\ d_id d = Some id)
            /\ (t / 1000 < now / 1000 + refreshTtl env ->
                exists d, verify refresh (JWT_SECRET env) t = Return d
                          /\ d_id d = Some id)
       else (forall (req : Request) (w : World),
               or_token (cookie "refreshToken" req) (body_refreshToken req)
               = Some access ->
               serve env (refreshToken env req) w
               = (errorHandler env (bare "315"), w))
            /\ (forall (req : Request) (w : World),
                  cookie "token" req = Some refresh ->
                  authenticate env req w
                  = (Return (Rejected (unauthorized
                                         "Invalid token. Please login again."
                                         (Some "INVALID_TOKEN"))), w)).
Proof.
  intros env id now t access refresh Hacc Href.
  apply sign_truthy in Hacc as (Hta & Hsa & ->).
  apply sign_truthy in Href as (Htr & Hsr & ->).
  fold (accessTtl env). fold (refreshTtl env).
  split; [split; reflexivity |].
  unfold sameSecret.
  destruct (String.eqb_spec (or_string (JWT_SECRET env) "")
              (or_string (JWT_REFRESH_SECRET env) "")) as [E | Hne].
  - split; intros Hlast.
    + rewrite E, verify_signed_own by exact Hsr.
      destruct (Z.geb_spec (t / 1000) (now / 1000 + accessTtl env)); [lia |].
      eexists; split; reflexivity.
    + rewrite <- E, verify_signed_own by exact Hsa.
      destruct (Z.geb_spec (t / 1000) (now / 1000 + refreshTtl env)); [lia |].
      eexists; split; reflexivity.
  - split; intros req w Hpresented.
    + destruct (verify_foreign_key (IdClaim id) (now / 1000)
                  (now / 1000 + accessTtl env) (clock w)
                  (or_string (JWT_SECRET env) "") (JWT_REFRESH_SECRET env))
        as (msg & Hverify); [apply String.eqb_neq; exact Hne |].
      unfold serve, refreshToken, asyncHandler, refreshToken_body.
      rewrite Hpresented. cbn [truthy negb].
      unfold try_catch, bind, date_now, lift, ret. rewrite Hverify.
      reflexivity.
    + destruct (verify_foreign_key (IdClaim id) (now / 1000)
                  (now / 1000 + refreshTtl env) (clock w)
                  (or_string (JWT_REFRESH_SECRET env) "") (JWT_SECRET env))
        as (msg & Hverify);
        [apply String.eqb_neq; intros E; apply Hne; symmetry; exact E |].
      unfold authenticate, present. rewrite Hpresented. cbn [truthy negb].
      unfold try_catch, bind, date_now, lift, ret. rewrite Hverify.
      reflexivity.
Qed.

(** With two secrets Ann's access token is refused by the refresh route;
    with one secret for both it verifies as a refresh token. *)
Lemma token_kinds_differ_by_secret_only_witness :
  (forall w : World,
     serve env0 (refreshToken env0 (refreshRequest (accessAt t0))) w
     = (errorHandler env0 (bare "315"), w))
  /\ exists d,
       verify (Signed (IdClaim 1%nat) (t0 / 1000) (t0 / 1000 + 900)
                 "one-secret") (JWT_REFRESH_SECRET envShared) (t0 + 60000)
       = Return d
       /\ d_id d = Some 1%nat.
Proof.
  split.
  - intros w.
    destruct (token_kinds_differ_by_secret_only env0 1%nat t0 t0
                (accessAt t0) tokenA eq_refl eq_refl) as (_ & Hroute & _).
    apply Hroute. reflexivity.
  - destruct (token_kinds_differ_by_secret_only envShared 1%nat t0 (t0 + 60000)
                (Signed (IdClaim 1%nat) (t0 / 1000) (t0 / 1000 + 900)
                   "one-secret")
                (Signed (IdClaim 1%nat) (t0 / 1000) (t0 / 1000 + 604800)
                   "one-secret") eq_refl eq_refl) as (_ & Hcross & _).
    apply Hcross. vm_compute. reflexivity.
Defined.

End GuardFacts.

(* ================================================================== *)
(** * How many live sessions a user has *)
(* ================================================================== *)

Section SessionCount.
Import Js Jwt Server Fixtures.
Local Open Scope js_scope.







End SessionCount.

(* ================================================================== *)
(** * The user table *)
(* ================================================================== *)

Section UserTable.
Import Js Jwt Server Fixtures.
Local Open Scope js_scope.






End UserTable.

(* ================================================================== *)
(** * The client under any sequence of events *)
(* ================================================================== *)

Section ClientTraces.
Import Client ClientFixtures.

Lemma count_refresh_calls_last (l : list Effect) (e : Effect) :
  count_refresh_calls (l ++ [e])
  = (count_refresh_calls l
     + match e with PostRefresh => 1 | _ => 0 end)%nat.
Proof.
  rewrite count_refresh_calls_app. destruct e; reflexivity.
Qed.

Lemma processQueue_no_refresh_call (error : option Failure) (token : jsval)
    (st : State) :
  count_refresh_calls (snd (processQueue error token st)) = 0%nat.
Proof.
  unfold processQueue. cbn [snd].
  induction (failedQueue st) as [| c l IH]; [reflexivity |].
  cbn [map]. destruct error; exact IH.
Qed.

(** What the settlement of the refresh call does to a state with a
    suspended handler. *)
Lemma settled_state (outcome : Failure + jsval) (st : State) (c : Config) :
  awaiting st = Some c ->
  let st' := onRefreshSettled outcome st in
  isRefreshing st' = false /\ awaiting st' = None /\ failedQueue st' = []
  /\ count_refresh_calls (effects st') = count_refresh_calls (effects st).
Proof.
  intros Hc st'. subst st'. unfold onRefreshSettled. rewrite Hc.
  assert (Hfail : forall e,
            let st' := refreshFailed e c st in
            isRefreshing st' = false /\ awaiting st' = None
            /\ failedQueue st' = []
            /\ count_refresh_calls (effects st')
               = count_refresh_calls (effects st)).
  { intros e. unfold refreshFailed.
    pose proof (processQueue_no_refresh_call (Some e) VNull st) as Hq.
    destruct (processQueue (Some e) VNull st) as [st1 later] eqn:Hp.
    unfold processQueue in Hp. injection Hp as <- <-.
    cbn [isRefreshing awaiting failedQueue effects snd] in *.
    repeat split. rewrite !count_refresh_calls_app, Hq. cbn. lia. }
  assert (Hok : forall token,
            let st' := refreshSucceeded token c st in
            isRefreshing st' = false /\ awaiting st' = None
            /\ failedQueue st' = []
            /\ count_refresh_calls (effects st')
               = count_refresh_calls (effects st)).
  { intros token. unfold refreshSucceeded.
    match goal with
    | |- context [processQueue None token ?s] =>
        pose proof (processQueue_no_refresh_call None token s) as Hq;
        destruct (processQueue None token s) as [st1 later] eqn:Hp
    end.
    unfold processQueue in Hp. injection Hp as <- <-.
    cbn [isRefreshing awaiting failedQueue effects snd] in *.
    repeat split. rewrite !count_refresh_calls_app, Hq. cbn. lia. }
  destruct outcome as [e | data]; [apply Hfail |].
  destruct (destructure data) as [e | token]; [apply Hfail | apply Hok].
Qed.

Lemma step_keeps_coordinator (ev : Event) (st : State) (n : nat) :
  coherent st ->
  (count_refresh_calls (effects st) <= n + in_flight st)%nat ->
  coherent (step ev st)
  /\ (count_refresh_calls (effects (step ev st))
      <= n + count_settled [ev] + in_flight (step ev st))%nat.
Proof.
  intros [Hiff Hq] Hcount. unfold in_flight, coherent in *.
  destruct ev as [data | error config | outcome]; cbn [step count_settled filter
                                                       List.length].
  - assert (Hsame : isRefreshing (onFulfilled data st) = isRefreshing st
                    /\ awaiting (onFulfilled data st) = awaiting st
                    /\ failedQueue (onFulfilled data st) = failedQueue st
                    /\ effects (onFulfilled data st) = effects st)
      by (unfold onFulfilled; destruct (truthy _); repeat split).
    destruct Hsame as (-> & -> & -> & ->).
    split; [split; assumption | lia].
  - unfold onRejected.
    destruct (is401 (response_status error) && negb (_retry config)).
    + destruct (isRefreshing st) eqn:Hr.
      * split; [split |]; cbn [isRefreshing awaiting failedQueue effects].
        -- exact Hiff.
        -- discriminate.
        -- lia.
      * split; [split |]; cbn [isRefreshing awaiting failedQueue effects].
        -- split; [discriminate | reflexivity].
        -- discriminate.
        -- rewrite count_refresh_calls_last. lia.
    + split; [split |]; cbn [isRefreshing awaiting failedQueue effects];
        try assumption.
      rewrite count_refresh_calls_last. lia.
  - destruct (awaiting st) as [c |] eqn:Hc.
    + destruct (settled_state outcome st c Hc) as (Hr & Ha & Hf & He).
      split; [split |].
      * rewrite Hr, Ha. split; [discriminate | intros H; contradiction].
      * intros _. exact Hf.
      * rewrite He, Hr.
        assert (isRefreshing st = true) as Hon
          by (apply Hiff; discriminate).
        rewrite Hon in Hcount. lia.
    + unfold onRefreshSettled. rewrite Hc.
      split; [split; [rewrite Hc; exact Hiff | exact Hq] |]. lia.
Qed.

Lemma run_keeps_coordinator (evs : list Event) (st : State) (n : nat) :
  coherent st ->
  (count_refresh_calls (effects st) <= n + in_flight st)%nat ->
  coherent (run evs st)
  /\ (count_refresh_calls (effects (run evs st))
      <= n + count_settled evs + in_flight (run evs st))%nat.
Proof.
  revert st n. induction evs as [| ev evs IH]; intros st n Hco Hcount.
  - cbn. split; [exact Hco | lia].
  - destruct (step_keeps_coordinator ev st n Hco Hcount) as [Hco1 Hcount1].
    destruct (IH (step ev st) (n + count_settled [ev])%nat Hco1 Hcount1)
      as [Hco2 Hcount2].
    change (run (ev :: evs) st) with (run evs (step ev st)).
    split; [exact Hco2 |].
    assert (count_settled (ev :: evs)
            = (count_settled [ev] + count_settled evs)%nat) as ->
      by (unfold count_settled; destruct ev; reflexivity).
    lia.
Qed.

(** X21.  Whatever responses, failures and settlements reach the
    interceptors, in whatever order, a handler is suspended exactly while
    the refreshing flag is set, nothing is queued while idle, and every
    refresh call but the one in flight has been settled: there is never more
    than one refresh call outstanding. *)
Theorem at_most_one_refresh_outstanding :
  forall evs : list Event,
    let st := run evs initial in
    coherent st
    /\ (count_refresh_calls (effects st)
        <= count_settled evs + in_flight st)%nat.
Proof.
  intros evs st. subst st.
  apply (run_keeps_coordinator evs initial 0%nat).
  - split; [split; [discriminate | intros H; contradiction] | reflexivity].
  - cbn. lia.
Qed.

Lemma count_answered_app (l1 l2 : list Effect) :
  count_answered (l1 ++ l2) = (count_answered l1 + count_answered l2)%nat.
Proof.
  unfold count_answered. rewrite filter_app, length_app. reflexivity.
Qed.

Lemma processQueue_answers_all (error : option Failure) (token : jsval)
    (st : State) :
  count_answered (snd (processQueue error token st))
  = List.length (failedQueue st).
Proof.
  unfold processQueue, api. cbn [snd].
  induction (failedQueue st) as [| c l IH]; [reflexivity |].
  cbn [map List.length]. rewrite <- IH. destruct error; reflexivity.
Qed.

(** What the settlement of the refresh call hands back. *)
Lemma settled_answers (outcome : Failure + jsval) (st : State) (c : Config) :
  awaiting st = Some c ->
  count_answered (effects (onRefreshSettled outcome st))
  = (count_answered (effects st) + List.length (failedQueue st) + 1)%nat.
Proof.
  intros Hc. unfold onRefreshSettled. rewrite Hc.
  assert (Hfail : forall e,
            count_answered (effects (refreshFailed e c st))
            = (count_answered (effects st) + List.length (failedQueue st)
               + 1)%nat).
  { intros e. unfold refreshFailed.
    pose proof (processQueue_answers_all (Some e) VNull st) as Hq.
    destruct (processQueue (Some e) VNull st) as [st1 later] eqn:Hp.
    unfold processQueue in Hp. injection Hp as <- <-.
    cbn [effects snd] in *.
    rewrite !count_answered_app, Hq. cbn. lia. }
  assert (Hok : forall token,
            count_answered (effects (refreshSucceeded token c st))
            = (count_answered (effects st) + List.length (failedQueue st)
               + 1)%nat).
  { intros token. unfold refreshSucceeded.
    match goal with
    | |- context [processQueue None token ?s] =>
        pose proof (processQueue_answers_all None token s) as Hq;
        destruct (processQueue None token s) as [st1 later] eqn:Hp
    end.
    unfold processQueue in Hp. injection Hp as <- <-.
    cbn [effects snd failedQueue] in *.
    rewrite !count_answered_app, Hq. cbn. lia. }
  destruct outcome as [e | data]; [apply Hfail |].
  destruct (destructure data) as [e | token]; [apply Hfail | apply Hok].
Qed.

Lemma step_loses_no_request (ev : Event) (st : State) (n : nat) :
  coherent st ->
  (n = count_answered (effects st) + List.length (failedQueue st)
       + in_flight st)%nat ->
  (n + count_failures [ev]
   = count_answered (effects (step ev st))
     + List.length (failedQueue (step ev st)) + in_flight (step ev st))%nat.
Proof.
  intros [Hiff Hq] Hn. unfold in_flight in *.
  destruct ev as [data | error config | outcome];
    cbn [step count_failures filter List.length].
  - assert (Hsame : isRefreshing (onFulfilled data st) = isRefreshing st
                    /\ failedQueue (onFulfilled data st) = failedQueue st
                    /\ effects (onFulfilled data st) = effects st)
      by (unfold onFulfilled; destruct (truthy _); repeat split).
    destruct Hsame as (-> & -> & ->). lia.
  - unfold onRejected.
    destruct (is401 (response_status error) && negb (_retry config)).
    + destruct (isRefreshing st) eqn:Hr;
        cbn [isRefreshing failedQueue effects].
      * rewrite length_app. cbn [List.length]. lia.
      * rewrite count_answered_app. cbn. lia.
    + cbn [isRefreshing failedQueue effects].
      rewrite count_answered_app. cbn. lia.
  - destruct (awaiting st) as [c |] eqn:Hc.
    + rewrite (settled_answers outcome st c Hc).
      destruct (settled_state outcome st c Hc) as (-> & _ & -> & _).
      assert (isRefreshing st = true) as Hon by (apply Hiff; discriminate).
      rewrite Hon in Hn. cbn [List.length]. lia.
    + unfold onRefreshSettled. rewrite Hc. lia.
Qed.

Lemma run_loses_no_request (evs : list Event) (st : State) (n : nat) :
  coherent st ->
  (n = count_answered (effects st) + List.length (failedQueue st)
       + in_flight st)%nat ->
  (n + count_failures evs
   = count_answered (effects (run evs st))
     + List.length (failedQueue (run evs st)) + in_flight (run evs st))%nat.
Proof.
  revert st n. induction evs as [| ev evs IH]; intros st n Hco Hn.
  - cbn. lia.
  - change (run (ev :: evs) st) with (run evs (step ev st)).
    assert (count_failures (ev :: evs)
            = (count_failures [ev] + count_failures evs)%nat) as ->
      by (unfold count_failures; destruct ev; reflexivity).
    rewrite Nat.add_assoc.
    apply IH.
    + apply (step_keeps_coordinator ev st (count_refresh_calls (effects st))
               Hco).
      lia.
    + apply step_loses_no_request; assumption.
Qed.

(** X22.  No failed request is lost or handed back twice: whatever events
    reach the interceptors, in whatever order, the number of requests that
    failed so far equals the number that were sent again or rejected to
    their caller, plus those waiting in the queue, plus the one suspended at
    the refresh call.  When the coordinator is idle, every failed request
    has been handed back exactly once. *)
Theorem no_request_lost_or_answered_twice :
  forall evs : list Event,
    let st := run evs initial in
    (count_failures evs
     = count_answered (effects st) + List.length (failedQueue st)
       + in_flight st)%nat
    /\ (isRefreshing st = false ->
        count_failures evs = count_answered (effects st)).
Proof.
  intros evs st. subst st.
  assert (Hco : coherent initial)
    by (split; [split; [discriminate | intros H; contradiction] | reflexivity]).
  pose proof (run_loses_no_request evs initial 0%nat Hco eq_refl) as Hsum.
  cbn [Nat.add] in Hsum.
  split; [exact Hsum |].
  intros Hidle.
  destruct (run_keeps_coordinator evs initial 0%nat Hco) as [[_ Hq] _];
    [cbn; lia |].
  rewrite Hsum. unfold in_flight. rewrite Hidle, (Hq Hidle). cbn. lia.
Qed.

(** X23.  The request that started a refresh is sent again marked as
    retried, so a second 401 on it is handed to its caller without another
    refresh; a request that waited in the queue is sent again unmarked, and
    a 401 on it starts the next refresh. *)
Theorem only_the_trigger_is_marked_retried :
  forall (c q : Config) (st : State) (data token : jsval),
    isRefreshing st = false -> failedQueue st = [] -> awaiting st = None ->
    unretried c -> unretried q ->
    destructure data = inr token ->
    let st2 := run [ResponseError e401 c; ResponseError e401 q;
                    RefreshSettled (inr data)] st in
    let again := step (ResponseError e401 (bearer token (mark_retry c))) st2 in
    let next := step (ResponseError e401 (bearer token q)) st2 in
    effects st2
    = effects st ++ [PostRefresh; Resend (bearer token (mark_retry c));
                     Resend (bearer token q)]
    /\ isRefreshing st2 = false
    /\ effects again
       = effects st2 ++ [RejectWith (bearer token (mark_retry c)) e401]
    /\ isRefreshing again = false
    /\ effects next = effects st2 ++ [PostRefresh]
    /\ isRefreshing next = true
    /\ awaiting next = Some (mark_retry (bearer token q)).
Proof.
  intros c q st data token Hidle Hq Hw Hc Hqu Hdata st2 again next.
  assert (H1 : run [ResponseError e401 c; ResponseError e401 q] st
               = mkState true [q] (accessToken st) (Some (mark_retry c))
                   (effects st ++ [PostRefresh])).
  { change (run [ResponseError e401 c; ResponseError e401 q] st)
      with (fail_all [c; q] st).
    apply fail_all_from_idle; try assumption.
    constructor; [exact Hc | constructor; [exact Hqu | constructor]]. }
  assert (H2 : st2 = mkState false [] (Some (toString token)) None
                       (effects st
                        ++ [PostRefresh; Resend (bearer token (mark_retry c));
                            Resend (bearer token q)])).
  { subst st2.
    change (run [ResponseError e401 c; ResponseError e401 q;
                 RefreshSettled (inr data)] st)
      with (onRefreshSettled (inr data)
              (run [ResponseError e401 c; ResponseError e401 q] st)).
    rewrite H1. unfold onRefreshSettled. cbn [awaiting]. rewrite Hdata.
    unfold refreshSucceeded, processQueue, api.
    cbn [effects failedQueue accessToken isRefreshing awaiting map].
    fold (bearer token (mark_retry c)). fold (bearer token q).
    rewrite !onRequest_bearer by reflexivity.
    rewrite <- app_assoc. reflexivity. }
  subst again next. rewrite H2. clear H2 H1 st2.
  unfold unretried in Hc, Hqu.
  cbn [step]. unfold onRejected.
  cbn [response_status e401 is401 Z.eqb Pos.eqb bearer set_authorization
       mark_retry _retry andb negb isRefreshing effects awaiting failedQueue
       accessToken].
  rewrite Hqu. cbn [negb].
  repeat split.
Qed.

(** Two requests fail together, the refresh brings the token fresh, and
    the request that had waited in the queue fails once more. *)
Lemma only_the_trigger_is_marked_retried_witness :
  let st2 := run [ResponseError e401 (get "/expenses");
                  ResponseError e401 (get "/auth/me");
                  RefreshSettled (inr (refreshedWith "fresh"))] loggedIn in
  effects st2
  = [PostRefresh;
     Resend (mkConfig "/expenses" (Some "Bearer fresh") true);
     Resend (mkConfig "/auth/me" (Some "Bearer fresh") false)]
  /\ effects (step (ResponseError e401
                      (mkConfig "/auth/me" (Some "Bearer fresh") false)) st2)
     = effects st2 ++ [PostRefresh].
Proof.
  cbv zeta.
  destruct (only_the_trigger_is_marked_retried (get "/expenses")
              (get "/auth/me") loggedIn (refreshedWith "fresh") (VStr "fresh")
              eq_refl eq_refl eq_refl eq_refl eq_refl eq_refl)
    as (Heffects & _ & _ & _ & Hnext & _).
  split; [exact Heffects | exact Hnext].
Defined.

Lemma set_accessToken_twice (t : option string) (st : State) :
  set_accessToken t (set_accessToken t st) = set_accessToken t st.
Proof. reflexivity. Qed.


(** X25.  A token a response delivered is on the next request: the request
    interceptor sets the Authorization header to Bearer and the string form
    of that token, and changes nothing else of the request; when the string
    form is empty, as for an empty array, or after logout, it sets no
    header. *)
Theorem delivered_token_rides_next_request :
  forall (data : jsval) (st : State) (c : Config),
    let token := opt_member (opt_member data "data") "accessToken" in
    (truthy token = true ->
     onRequest (onFulfilled data st) c
     = if (toString token =? "")%string then c else bearer token c)
    /\ (forall s, token = VStr s -> s <> "" ->
          onRequest (onFulfilled data st) c
          = mkConfig (url c) (Some ("Bearer " ++ s)%string) (_retry c))
    /\ onRequest (snd (authService_logout data st)) c = c.
Proof.
  intros data st c token. unfold onFulfilled. fold token.
  split; [| split].
  - intros ->. unfold onRequest. cbn [set_accessToken accessToken].
    destruct (toString token =? "")%string; reflexivity.
  - intros s Hs Hne. rewrite Hs. cbn [truthy toString].
    destruct (String.eqb_spec s ""); [contradiction |]. cbn [negb].
    unfold onRequest. cbn [set_accessToken accessToken].
    destruct (String.eqb_spec s ""); [contradiction | reflexivity].
  - reflexivity.
Qed.

End ClientTraces.

(* ================================================================== *)
(** * The client store and the route guards *)
(* ================================================================== *)

Section StoreFacts.
Import Store.

Lemma reducer_keeps_settled (state : AuthState) (action : Action) :
  settled state -> settled (reducer state action).
Proof.
  unfold settled. intros H.
  destruct action; cbn [reducer user isAuthenticated]; try exact H;
    split; intros; congruence.
Qed.

Lemma reduce_keeps_settled (actions : list Action) (state : AuthState) :
  settled state -> settled (reduce actions state).
Proof.
  revert state. induction actions as [| a actions IH]; intros state H.
  - exact H.
  - apply IH, reducer_keeps_settled, H.
Qed.

(** X26.  Whatever actions the store has reduced since it was created, it
    says authenticated exactly when it holds a user.  So a protected route
    shows its children only over a stored user and when nothing is loading,
    a public route shows its children only without one, never both at once,
    and while loading both show the spinner. *)
Theorem store_authenticated_iff_user :
  forall actions : list Action,
    let state := reduce actions initialState in
    (isAuthenticated state = true <-> user state <> None)
    /\ (ProtectedRoute state = Children ->
        user state <> None /\ isLoading state = false)
    /\ (PublicRoute state = Children ->
        user state = None /\ isLoading state = false)
    /\ ~ (ProtectedRoute state = Children /\ PublicRoute state = Children)
    /\ (isLoading state = true ->
        ProtectedRoute state = Spinner /\ PublicRoute state = Spinner)
    /\ (isLoading state = false ->
        (ProtectedRoute state = Children
         /\ PublicRoute state = Navigate "/dashboard")
        \/ (ProtectedRoute state = Navigate "/login"
            /\ PublicRoute state = Children)).
Proof.
  intros actions state.
  assert (H : settled state)
    by (apply reduce_keeps_settled; split; [discriminate | intros H; contradiction]).
  clearbody state. unfold settled in H. unfold ProtectedRoute, PublicRoute.
  split; [exact H |].
  assert (Hnone : isAuthenticated state = false -> user state = None).
  { intros Hf. destruct (user state) eqn:Hu; [| reflexivity].
    assert (isAuthenticated state = true) by (apply H; discriminate).
    congruence. }
  destruct (isLoading state), (isAuthenticated state) eqn:Hauth; cbn [negb].
  - split; [discriminate |]. split; [discriminate |].
    split; [intros [? _]; discriminate |].
    split; [intros _; split; reflexivity | discriminate].
  - split; [discriminate |]. split; [discriminate |].
    split; [intros [? _]; discriminate |].
    split; [intros _; split; reflexivity | discriminate].
  - split; [intros _; split; [apply H; reflexivity | reflexivity] |].
    split; [discriminate |].
    split; [intros [_ ?]; discriminate |].
    split; [discriminate |]. intros _. left. split; reflexivity.
  - split; [discriminate |].
    split; [intros _; split; [apply Hnone; reflexivity | reflexivity] |].
    split; [intros [? _]; discriminate |].
    split; [discriminate |]. intros _. right. split; reflexivity.
Qed.

End StoreFacts.
